(** * EC2 stop Lambda (lambda.py): shallow embedding and verified properties

    The development follows the layout of [lambda.py]:
    - Python values the handler manipulates (strings, [None], lists, [repr]);
    - the module-level configuration read from [os.environ];
    - the tag predicate [should_exclude];
    - the effectful handler [lambda_handler], written in a small
      state/exception/trace monad whose primitive effects are the three
      remote calls ([describe_instances], [stop_instances], [publish]) and the
      logger.

    Strings are sequences of code points below 256 (Rocq's [ascii]); every
    literal of the source lies in that range. *)

From Stdlib Require Import String Ascii List Bool Arith Lia.
From Stdlib Require Import Permutation.
Import ListNotations.
Open Scope list_scope.
Open Scope string_scope.

(* ===================================================================== *)
(** ** Python strings *)
(* ===================================================================== *)

Module Py.

(** [str.isspace] on one character, for code points below 256:
    TAB, LF, VT, FF, CR, FS, GS, RS, US, SPACE, NEL (0x85), NBSP (0xa0). *)
Definition isspace (c : ascii) : bool :=
  let n := nat_of_ascii c in
  ((9 <=? n)%nat && (n <=? 13)%nat) || ((28 <=? n)%nat && (n <=? 32)%nat)
  || (n =? 133)%nat || (n =? 160)%nat.

(** [s.lstrip()] *)
Fixpoint lstrip (s : string) : string :=
  match s with
  | EmptyString => EmptyString
  | String c rest => if isspace c then lstrip rest else s
  end.

(** [s.rstrip()] *)
Fixpoint rstrip (s : string) : string :=
  match s with
  | EmptyString => EmptyString
  | String c rest =>
      match rstrip rest with
      | EmptyString => if isspace c then EmptyString else String c EmptyString
      | r => String c r
      end
  end.

(** [s.strip()] *)
Definition strip (s : string) : string := rstrip (lstrip s).

(** [s.split(sep)] for a one-character separator: never returns the empty
    list ([''.split(',') == ['']]). *)
Fixpoint split (sep : ascii) (s : string) : list string :=
  match s with
  | EmptyString => [EmptyString]
  | String c rest =>
      if Ascii.eqb c sep then EmptyString :: split sep rest
      else match split sep rest with
           | [] => [String c EmptyString]
           | w :: ws => String c w :: ws
           end
  end.

(** Truth value of a [str]: non-empty. *)
Definition truthy (s : string) : bool :=
  match s with EmptyString => false | String _ _ => true end.

(** Truth value of an [Optional[str]]: [None] and [''] are falsy. *)
Definition truthy_opt (o : option string) : bool :=
  match o with None => false | Some s => truthy s end.

(** [a == b] where [a] is [None] or a [str] and [b] is a [str]. *)
Definition eq_opt (a : option string) (b : string) : bool :=
  match a with None => false | Some x => String.eqb x b end.

(** [a in l] where [a] is [None] or a [str] and [l] is a list of [str]. *)
Definition contains (l : list string) (a : option string) : bool :=
  match a with None => false | Some x => existsb (String.eqb x) l end.

(** *** [repr] *)

Definition hex_digit (n : nat) : ascii :=
  if (n <? 10)%nat then ascii_of_nat (48 + n) else ascii_of_nat (87 + n).

(** [Py_UNICODE_ISPRINTABLE] for code points below 256. *)
Definition isprintable (c : ascii) : bool :=
  let n := nat_of_ascii c in
  ((32 <=? n)%nat && (n <=? 126)%nat) || ((161 <=? n)%nat && negb (n =? 173)%nat).

Definition backslash : ascii := "\"%char.
Definition squote : ascii := "'"%char.
Definition dquote : ascii := ascii_of_nat 34.

Fixpoint mem_char (c : ascii) (s : string) : bool :=
  match s with
  | EmptyString => false
  | String d rest => Ascii.eqb c d || mem_char c rest
  end.

(** The delimiter [repr] picks: double quotes exactly when the string has a
    single quote and no double quote. *)
Definition repr_quote (s : string) : ascii :=
  if mem_char squote s && negb (mem_char dquote s) then dquote else squote.

(** One character of the body of [repr(s)], delimiter [q]. *)
Definition repr_char (q c : ascii) : string :=
  let n := nat_of_ascii c in
  if Ascii.eqb c q || Ascii.eqb c backslash then String backslash (String c EmptyString)
  else if (n =? 9)%nat then String backslash "t"
  else if (n =? 10)%nat then String backslash "n"
  else if (n =? 13)%nat then String backslash "r"
  else if isprintable c then String c EmptyString
  else String backslash
         (String "x" (String (hex_digit (n / 16)) (String (hex_digit (n mod 16)) EmptyString))).

Fixpoint repr_body (q : ascii) (s : string) : string :=
  match s with
  | EmptyString => EmptyString
  | String c rest => repr_char q c ++ repr_body q rest
  end.

(** [repr(s)] for a [str]. *)
Definition repr_str (s : string) : string :=
  let q := repr_quote s in
  String q (repr_body q s ++ String q EmptyString).

(** Reads back the first character of a [repr] body (the inverse of
    [repr_char]); [None] at the closing delimiter.  Only used to show that
    [repr] is one-to-one. *)
Definition unhex (c : ascii) : nat :=
  let n := nat_of_ascii c in if (n <? 58)%nat then n - 48 else n - 87.

Definition unrepr_char (q : ascii) (s : string) : option (ascii * string) :=
  match s with
  | EmptyString => None
  | String c rest =>
      if Ascii.eqb c q then None
      else if Ascii.eqb c backslash then
        match rest with
        | EmptyString => None
        | String d rest' =>
            if Ascii.eqb d "t" then Some (ascii_of_nat 9, rest')
            else if Ascii.eqb d "n" then Some (ascii_of_nat 10, rest')
            else if Ascii.eqb d "r" then Some (ascii_of_nat 13, rest')
            else if Ascii.eqb d "x" then
              match rest' with
              | String h1 (String h2 r) => Some (ascii_of_nat (16 * unhex h1 + unhex h2), r)
              | _ => None
              end
            else Some (d, rest')
        end
      else Some (c, rest)
  end.

(** [repr(x)] for [x] a [str] or [None]. *)
Definition repr (x : option string) : string :=
  match x with None => "None" | Some s => repr_str s end.

(** [str(x)], which is what an f-string field [{x}] renders. *)
Definition str (x : option string) : string :=
  match x with None => "None" | Some s => s end.

Fixpoint join (sep : string) (l : list string) : string :=
  match l with
  | [] => EmptyString
  | [x] => x
  | x :: rest => x ++ sep ++ join sep rest
  end.

(** [repr(l)] (also [str(l)]) for a list of [str]/[None]. *)
Definition repr_list (l : list (option string)) : string :=
  "[" ++ join ", " (map repr l) ++ "]".

End Py.

(* ===================================================================== *)
(** ** Data model: the part of the EC2 response the handler reads *)
(* ===================================================================== *)

(** A tag dictionary: [t.get('Key')], [t.get('Value')]. *)
Record tag := mkTag { Key : option string; Value : option string }.

(** The ['Tags'] entry of an instance dictionary: absent, [None], or a list. *)
Inductive tags_entry :=
| TagsMissing
| TagsNone
| TagsList (l : list tag).

Record instance := mkInstance {
  InstanceId : option string;   (* inst.get('InstanceId') *)
  Tags : tags_entry
}.

Record reservation := mkReservation {
  Instances : option (list instance)   (* None: key absent *)
}.

Record describe_response := mkResponse {
  Reservations : option (list reservation)   (* None: key absent *)
}.

(** [d.get(k, [])] *)
Definition get_or_nil {A} (o : option (list A)) : list A :=
  match o with None => [] | Some l => l end.

(* ===================================================================== *)
(** ** Module-level configuration *)
(* ===================================================================== *)

(** [os.environ], through [os.environ.get]. *)
Definition environ := string -> option string.

Definition environ_get (env : environ) (name default : string) : string :=
  match env name with None => default | Some v => v end.

Record globals := mkGlobals {
  SNS_TOPIC_ARN : option string;
  EXCLUDE_TAG_KEY : string;
  EXCLUDE_TAG_VALUES : list string
}.

(** [[v.strip() for v in raw.split(',') if v.strip()]] *)
Definition parse_exclude_values (raw : string) : list string :=
  map Py.strip (filter (fun v => Py.truthy (Py.strip v)) (Py.split "," raw)).

Definition load_globals (env : environ) : globals :=
  {| SNS_TOPIC_ARN := env "SNS_TOPIC_ARN";
     EXCLUDE_TAG_KEY := environ_get env "EXCLUDE_TAG_KEY" "Environment";
     EXCLUDE_TAG_VALUES := parse_exclude_values (environ_get env "EXCLUDE_TAG_VALUES" "") |}.

(* ===================================================================== *)
(** ** [should_exclude] *)
(* ===================================================================== *)

(** [instance.get('Tags', []) or []] *)
Definition tags_of (inst : instance) : list tag :=
  match Tags inst with
  | TagsMissing => []
  | TagsNone => []
  | TagsList l => l
  end.

Definition tag_matches (g : globals) (t : tag) : bool :=
  Py.eq_opt (Key t) (EXCLUDE_TAG_KEY g) && Py.contains (EXCLUDE_TAG_VALUES g) (Value t).

(** The [for t in tags] loop with its early [return True]. *)
Fixpoint should_exclude_loop (g : globals) (tags : list tag) : bool :=
  match tags with
  | [] => false
  | t :: rest => if tag_matches g t then true else should_exclude_loop g rest
  end.

Definition should_exclude (g : globals) (inst : instance) : bool :=
  should_exclude_loop g (tags_of inst).

(* ===================================================================== *)
(** ** Effects: exceptions, remote services, trace *)
(* ===================================================================== *)

(** The exceptions of a run are subclasses of [Exception] (what the service
    clients raise); the handler only tells [botocore.exceptions.ClientError]
    from the rest (connection errors, timeouts, parameter validation, ...).
    [exc_str] is [str(e)]. *)
Inductive exc_class := ClientError | OtherException.

Record exception := mkExc { exc_cls : exc_class; exc_str : string }.

Definition is_ClientError (e : exception) : bool :=
  match exc_cls e with ClientError => true | OtherException => false end.

Inductive result (A : Type) :=
| Ok (a : A)
| Raised (e : exception).
Arguments Ok {A} a.
Arguments Raised {A} e.

(** One element of [Filters=[...]]. *)
Record filter_spec := mkFilter { Name : string; Values : list string }.

(** What a run does to the outside, in order. *)
Inductive event :=
| EvDescribe (Filters : list filter_spec)
| EvStop (InstanceIds : list (option string))
| EvPublish (TopicArn Subject Message : string)
| EvLogInfo (msg : string)
| EvLogError (msg : string)
| EvLogException (msg : string) (e : exception).

(** The remote collaborators, over an arbitrary state [W] of the outside
    world: each call may return or raise, and may change the world. *)
Record services (W : Type) := mkServices {
  describe_instances : list filter_spec -> W -> result describe_response * W;
  stop_instances : list (option string) -> W -> result unit * W;
  publish : string -> string -> string -> W -> result unit * W
}.
Arguments describe_instances {W} s _ _.
Arguments stop_instances {W} s _ _.
Arguments publish {W} s _ _ _ _.

(** The handler's return value [{'status': ..., 'message': ...}]. *)
Record outcome := mkOutcome { status : string; message : string }.

Section Monad.

Context {W : Type}.

(** A computation: from a world to a result, the new world, and the events
    emitted on the way (kept also when the computation raises). *)
Definition M (A : Type) : Type := W -> result A * W * list event.

Definition ret {A} (a : A) : M A := fun w => (Ok a, w, []).

Definition raise {A} (e : exception) : M A := fun w => (Raised e, w, []).

Definition bind {A B} (m : M A) (f : A -> M B) : M B :=
  fun w =>
    match m w with
    | (Ok a, w1, t1) => let '(r, w2, t2) := f a w1 in (r, w2, (t1 ++ t2)%list)
    | (Raised e, w1, t1) => (Raised e, w1, t1)
    end.

(** [try: m  except C as e: h e], where [catches e] tells whether [e] is an
    instance of [C]. *)
Definition try_except {A} (catches : exception -> bool) (m : M A)
           (h : exception -> M A) : M A :=
  fun w =>
    match m w with
    | (Ok a, w1, t1) => (Ok a, w1, t1)
    | (Raised e, w1, t1) =>
        if catches e
        then let '(r, w2, t2) := h e w1 in (r, w2, (t1 ++ t2)%list)
        else (Raised e, w1, t1)
    end.

Definition emit (ev : event) : M unit := fun w => (Ok tt, w, [ev]).

(** A remote call: the request is recorded, then the service answers. *)
Definition call {A} (ev : event) (f : W -> result A * W) : M A :=
  fun w => let '(r, w1) := f w in (r, w1, [ev]).

End Monad.

Declare Scope handler_scope.
Delimit Scope handler_scope with handler.
Notation "x <- m ;; k" := (bind m (fun x => k))
  (at level 61, m at next level, right associativity) : handler_scope.
Notation "m ;; k" := (bind m (fun _ => k))
  (at level 61, right associativity) : handler_scope.

(** [except Exception] and [except ClientError]. *)
Definition except_Exception (e : exception) : bool := true.
Definition except_ClientError (e : exception) : bool := is_ClientError e.

(* ===================================================================== *)
(** ** [lambda_handler] *)
(* ===================================================================== *)

Section Handler.

Context {W : Type}.
Variable g : globals.
Variable svc : services W.

Local Open Scope handler_scope.

Definition logger_info (msg : string) : M unit := emit (W := W) (EvLogInfo msg).
Definition logger_error (msg : string) : M unit := emit (W := W) (EvLogError msg).
Definition logger_exception (msg : string) (e : exception) : M unit :=
  emit (W := W) (EvLogException msg e).

Definition ec2_describe_instances (Filters : list filter_spec) : M describe_response :=
  call (EvDescribe Filters) (describe_instances svc Filters).

Definition ec2_stop_instances (InstanceIds : list (option string)) : M unit :=
  call (EvStop InstanceIds) (stop_instances svc InstanceIds).

Definition sns_publish (TopicArn Subject Message : string) : M unit :=
  call (EvPublish TopicArn Subject Message) (publish svc TopicArn Subject Message).

(** The value of [SNS_TOPIC_ARN] inside an [if SNS_TOPIC_ARN:] branch. *)
Definition topic_arn : string :=
  match SNS_TOPIC_ARN g with Some s => s | None => EmptyString end.

(** [for inst in reservation.get('Instances', [])]: the loop body appends to
    [instances_to_stop] or logs and [continue]s. *)
Fixpoint for_instances (insts : list instance)
         (instances_to_stop : list (option string)) : M (list (option string)) :=
  match insts with
  | [] => ret instances_to_stop
  | inst :: rest =>
      let instance_id := InstanceId inst in
      if should_exclude g inst
      then logger_info ("Skipping " ++ Py.str instance_id ++ " due to tag exclusion") ;;
           for_instances rest instances_to_stop
      else for_instances rest (instances_to_stop ++ [instance_id])%list
  end.

(** [for reservation in resp.get('Reservations', [])] *)
Fixpoint for_reservations (rs : list reservation)
         (instances_to_stop : list (option string)) : M (list (option string)) :=
  match rs with
  | [] => ret instances_to_stop
  | reservation :: rest =>
      acc <- for_instances (get_or_nil (Instances reservation)) instances_to_stop ;;
      for_reservations rest acc
  end.

Definition running_filter : list filter_spec :=
  [ {| Name := "instance-state-name"; Values := ["running"] |} ].

(** The [if instances_to_stop: ... else: ...] block; its value is [message]. *)
Definition stop_or_skip (instances_to_stop : list (option string)) : M string :=
  match instances_to_stop with
  | _ :: _ =>
      logger_info ("Stopping instances: " ++ Py.repr_list instances_to_stop) ;;
      ec2_stop_instances instances_to_stop ;;
      ret ("Stopped EC2 instances: " ++ Py.repr_list instances_to_stop)
  | [] =>
      let message := "No eligible instances to stop." in
      logger_info message ;;
      ret message
  end.

(** The [if SNS_TOPIC_ARN: try: publish ... except ClientError] block. *)
Definition notify (message : string) : M unit :=
  if Py.truthy_opt (SNS_TOPIC_ARN g)
  then try_except except_ClientError
         (sns_publish topic_arn "EC2 Stop Notification" message)
         (fun e => logger_error ("Failed to publish SNS message: " ++ exc_str e))
  else ret tt.

(** The body of the outer [try]. *)
Definition handler_body : M outcome :=
  resp <- ec2_describe_instances running_filter ;;
  instances_to_stop <- for_reservations (get_or_nil (Reservations resp)) [] ;;
  message <- stop_or_skip instances_to_stop ;;
  notify message ;;
  ret {| status := "ok"; message := message |}.

(** The [if SNS_TOPIC_ARN: try: publish ... except Exception: pass] block. *)
Definition notify_error (e : exception) : M unit :=
  if Py.truthy_opt (SNS_TOPIC_ARN g)
  then try_except except_Exception
         (sns_publish topic_arn "EC2 Stop Lambda Error" (exc_str e))
         (fun _ => ret tt)
  else ret tt.

(** The outer [except Exception as e] block, ending in a bare [raise]. *)
Definition handler_except (e : exception) : M outcome :=
  logger_exception "Lambda execution failed" e ;;
  notify_error e ;;
  raise e.

Definition lambda_handler {E C : Type} (event : E) (context : C) : M outcome :=
  try_except except_Exception handler_body handler_except.

End Handler.

(** *** Reading a trace *)

Definition stop_calls (tr : list event) : list (list (option string)) :=
  flat_map (fun ev => match ev with EvStop ids => [ids] | _ => [] end) tr.

Definition publish_calls (tr : list event) : list (string * string * string) :=
  flat_map (fun ev => match ev with EvPublish a s m => [(a, s, m)] | _ => [] end) tr.

Definition describe_calls (tr : list event) : list (list filter_spec) :=
  flat_map (fun ev => match ev with EvDescribe f => [f] | _ => [] end) tr.


(** *** The pure content of the fetch-and-filter steps *)

(** The flat sequence of fetched instance records.  The handler never reads
    an instance's state: the running set is what the query filtered on
    [instance-state-name = running] returns. *)
Definition fetched (resp : describe_response) : list instance :=
  flat_map (fun r => get_or_nil (Instances r)) (get_or_nil (Reservations resp)).

(** The identifiers of the fetched instances that are not excluded. *)
Definition to_stop (g : globals) (resp : describe_response) : list (option string) :=
  map InstanceId (filter (fun i => negb (should_exclude g i)) (fetched resp)).

(** The skip lines the filter loop logs, in order. *)
Definition skip_logs (g : globals) (insts : list instance) : list event :=
  flat_map (fun inst =>
              if should_exclude g inst
              then [EvLogInfo ("Skipping " ++ Py.str (InstanceId inst) ++ " due to tag exclusion")]
              else []) insts.

(** The summary the handler builds for a given list of identifiers. *)
Definition summary (ids : list (option string)) : string :=
  match ids with
  | [] => "No eligible instances to stop."
  | _ :: _ => "Stopped EC2 instances: " ++ Py.repr_list ids
  end.

(** What steps 1-3 emit when none of them raises. *)
Definition steps_trace (g : globals) (resp : describe_response) : list event :=
  (EvDescribe running_filter :: skip_logs g (fetched resp))
  ++ match to_stop g resp with
     | [] => [EvLogInfo "No eligible instances to stop."]
     | ids => [EvLogInfo ("Stopping instances: " ++ Py.repr_list ids); EvStop ids]
     end.

(** In the words of the data model: the instance's tag set has an entry with
    the configured key and a value among the exempt values. *)
Definition has_exempt_tag (g : globals) (inst : instance) : Prop :=
  exists t v, In t (tags_of inst)
              /\ Key t = Some (EXCLUDE_TAG_KEY g)
              /\ Value t = Some v
              /\ In v (EXCLUDE_TAG_VALUES g).

(** In the words of the specification ("match on the first occurrence or
    treat as a mapping lookup"): the value stored under the first entry whose
    key is [k].  Not part of [lambda.py]; [should_exclude] is compared with
    it. *)
Fixpoint first_occurrence (k : string) (tags : list tag) : option (option string) :=
  match tags with
  | [] => None
  | t :: rest => if Py.eq_opt (Key t) k then Some (Value t) else first_occurrence k rest
  end.

(** In the words of the specification: the decision that looks only at the
    first occurrence of the key. *)
Definition first_occurrence_decision (g : globals) (inst : instance) : bool :=
  match first_occurrence (EXCLUDE_TAG_KEY g) (tags_of inst) with
  | Some v => Py.contains (EXCLUDE_TAG_VALUES g) v
  | None => false
  end.

(** At most one entry carries the key [k]. *)
Fixpoint key_unique (k : string) (tags : list tag) : Prop :=
  match tags with
  | [] => True
  | t :: rest =>
      (Py.eq_opt (Key t) k = true -> forall u, In u rest -> Py.eq_opt (Key u) k = false)
      /\ key_unique k rest
  end.

(** What the error block emits for the exception [e]. *)
Definition error_trace (g : globals) (e : exception) : list event :=
  EvLogException "Lambda execution failed" e
  :: (if Py.truthy_opt (SNS_TOPIC_ARN g)
      then [EvPublish (topic_arn g) "EC2 Stop Lambda Error" (exc_str e)]
      else []).

(** Steps 1-3 went through against the world [w]: the fetch returned [resp]
    and the stop call, if one was due, returned; [w2] is the world then. *)
Definition steps_ok {W} (g : globals) (svc : services W) (w : W)
           (resp : describe_response) (w2 : W) : Prop :=
  exists w1,
    describe_instances svc running_filter w = (Ok resp, w1)
    /\ match to_stop g resp with
       | [] => w2 = w1
       | ids => stop_instances svc ids w1 = (Ok tt, w2)
       end.

(** The six ways a run of the handler can go, by what the services answer. *)
Inductive run_case {W} (g : globals) (svc : services W) (w : W)
  : result outcome * W * list event -> Prop :=
| RunFetchRaises e w1 w' :
    describe_instances svc running_filter w = (Raised e, w1) ->
    run_case g svc w (Raised e, w', EvDescribe running_filter :: error_trace g e)
| RunStopRaises resp w1 e w2 w' :
    describe_instances svc running_filter w = (Ok resp, w1) ->
    to_stop g resp <> [] ->
    stop_instances svc (to_stop g resp) w1 = (Raised e, w2) ->
    run_case g svc w (Raised e, w', (steps_trace g resp ++ error_trace g e)%list)
| RunNoTopic resp w2 :
    steps_ok g svc w resp w2 ->
    Py.truthy_opt (SNS_TOPIC_ARN g) = false ->
    run_case g svc w
             (Ok {| status := "ok"; message := summary (to_stop g resp) |}, w2,
              steps_trace g resp)
| RunPublished resp w2 w3 :
    steps_ok g svc w resp w2 ->
    Py.truthy_opt (SNS_TOPIC_ARN g) = true ->
    publish svc (topic_arn g) "EC2 Stop Notification" (summary (to_stop g resp)) w2
    = (Ok tt, w3) ->
    run_case g svc w
             (Ok {| status := "ok"; message := summary (to_stop g resp) |}, w3,
              (steps_trace g resp
               ++ [EvPublish (topic_arn g) "EC2 Stop Notification"
                             (summary (to_stop g resp))])%list)
| RunPublishClientError resp w2 e w3 :
    steps_ok g svc w resp w2 ->
    Py.truthy_opt (SNS_TOPIC_ARN g) = true ->
    publish svc (topic_arn g) "EC2 Stop Notification" (summary (to_stop g resp)) w2
    = (Raised e, w3) ->
    is_ClientError e = true ->
    run_case g svc w
             (Ok {| status := "ok"; message := summary (to_stop g resp) |}, w3,
              (steps_trace g resp
               ++ [EvPublish (topic_arn g) "EC2 Stop Notification"
                             (summary (to_stop g resp));
                   EvLogError ("Failed to publish SNS message: " ++ exc_str e)])%list)
| RunPublishOtherError resp w2 e w3 w' :
    steps_ok g svc w resp w2 ->
    Py.truthy_opt (SNS_TOPIC_ARN g) = true ->
    publish svc (topic_arn g) "EC2 Stop Notification" (summary (to_stop g resp)) w2
    = (Raised e, w3) ->
    is_ClientError e = false ->
    run_case g svc w
             (Raised e, w',
              (steps_trace g resp
               ++ EvPublish (topic_arn g) "EC2 Stop Notification"
                            (summary (to_stop g resp))
               :: error_trace g e)%list).

(** *** Reading a run *)

Definition result_of {A W} (run : result A * W * list event) : result A := fst (fst run).
Definition trace_of {A W} (run : result A * W * list event) : list event := snd run.

(* ===================================================================== *)
(** ** Concrete configurations, inventories and service behaviours *)
(* ===================================================================== *)

Module Fixtures.

Definition topic : string := "arn:aws:sns:us-east-1:123456789012:ec2-stop".

(** [EXCLUDE_TAG_VALUES=prod], default key, no topic. *)
Definition env_prod : environ :=
  fun name => if String.eqb name "EXCLUDE_TAG_VALUES" then Some "prod" else None.

(** Nothing set. *)
Definition env_unset : environ := fun _ => None.

Definition g_prod : globals :=
  {| SNS_TOPIC_ARN := Some topic;
     EXCLUDE_TAG_KEY := "Environment";
     EXCLUDE_TAG_VALUES := ["prod"] |}.


Definition i1 : instance := {| InstanceId := Some "i-1"; Tags := TagsList [] |}.

Definition i2 : instance :=
  {| InstanceId := Some "i-2";
     Tags := TagsList [ {| Key := Some "Environment"; Value := Some "prod" |} ] |}.

(** Two entries under the exclusion key; only the second is exempt. *)
Definition i3 : instance :=
  {| InstanceId := Some "i-3";
     Tags := TagsList [ {| Key := Some "Environment"; Value := Some "dev" |};
                        {| Key := Some "Environment"; Value := Some "prod" |} ] |}.

Definition untagged : instance := {| InstanceId := Some "i-4"; Tags := TagsMissing |}.

Definition two_running : describe_response :=
  {| Reservations := Some [ {| Instances := Some [i1; i2] |} ] |}.

Definition only_exempt : describe_response :=
  {| Reservations := Some [ {| Instances := Some [i2] |} ] |}.

Definition timeout : exception :=
  {| exc_cls := OtherException; exc_str := "Connect timeout on endpoint URL" |}.

Definition denied : exception :=
  {| exc_cls := ClientError;
     exc_str := "An error occurred (AuthorizationError) when calling the Publish operation" |}.

(** Services with fixed answers; the world counts the calls answered.  The
    answer of [publish] may depend on the subject. *)
Definition scripted (d : result describe_response) (s : result unit)
           (p : string -> result unit) : services nat :=
  {| describe_instances := fun _ n => (d, S n);
     stop_instances := fun _ n => (s, S n);
     publish := fun _ subject _ n => (p subject, S n) |}.

Definition all_ok (resp : describe_response) : services nat :=
  scripted (Ok resp) (Ok tt) (fun _ => Ok tt).

End Fixtures.

(** *** Log lines of a trace, by level *)

Definition info_logs (tr : list event) : list string :=
  flat_map (fun ev => match ev with EvLogInfo m => [m] | _ => [] end) tr.

(** The records at level ERROR: those of [logger.error] and those of
    [logger.exception], which logs at ERROR with the traceback attached. *)
Definition error_logs (tr : list event) : list string :=
  flat_map (fun ev =>
              match ev with
              | EvLogError m => [m]
              | EvLogException m _ => [m]
              | _ => []
              end) tr.

Definition exception_logs (tr : list event) : list (string * exception) :=
  flat_map (fun ev => match ev with EvLogException m e => [(m, e)] | _ => [] end) tr.

(** The line the filter loop logs for a skipped instance. *)
Definition skip_line (inst : instance) : string :=
  "Skipping " ++ Py.str (InstanceId inst) ++ " due to tag exclusion".

(** A value as [parse_exclude_values] can produce it: not empty, without a
    comma, and unchanged by [strip]. *)
Definition clean_value (v : string) : Prop :=
  v <> EmptyString /\ Py.mem_char "," v = false /\ Py.strip v = v.

Module Samples.

(** [EXCLUDE_TAG_VALUES=" prod"], [SNS_TOPIC_ARN=""]. *)
Definition env_padded : environ :=
  fun name =>
    if String.eqb name "EXCLUDE_TAG_VALUES" then Some " prod"
    else if String.eqb name "SNS_TOPIC_ARN" then Some ""
    else None.

(** Tagged [Environment=" prod"], with a leading space in the value. *)
Definition padded : instance :=
  {| InstanceId := Some "i-5";
     Tags := TagsList [ {| Key := Some "Environment"; Value := Some " prod" |} ] |}.

(** The tags of [Fixtures.i3] in the other order. *)
Definition i3_swapped : instance :=
  {| InstanceId := Some "i-3";
     Tags := TagsList [ {| Key := Some "Environment"; Value := Some "prod" |};
                        {| Key := Some "Environment"; Value := Some "dev" |} ] |}.

(** A response without ['Reservations'], and one whose reservation has no
    ['Instances']. *)
Definition no_reservations : describe_response := {| Reservations := None |}.

Definition no_instances : describe_response :=
  {| Reservations := Some [ {| Instances := None |}; {| Instances := Some [] |} ] |}.

(** Two reservations; the second instance of the first is exempt. *)
Definition two_reservations : describe_response :=
  {| Reservations :=
       Some [ {| Instances := Some [Fixtures.i1; Fixtures.i2] |};
              {| Instances := Some [Fixtures.untagged; Fixtures.i1] |} ] |}.

Definition g_two_values : globals :=
  {| SNS_TOPIC_ARN := Some Fixtures.topic;
     EXCLUDE_TAG_KEY := "Environment";
     EXCLUDE_TAG_VALUES := ["prod"; "dev"] |}.

End Samples.

(* ===================================================================== *)
(** ** The exclusion predicate *)
(* ===================================================================== *)

Lemma contains_In (l : list string) (a : option string) :
  Py.contains l a = true <-> exists v, a = Some v /\ In v l.
Proof.
  destruct a as [x|]; simpl.
  - rewrite existsb_exists. split.
    + intros (y & Hy & Heq). apply String.eqb_eq in Heq. subst y. eauto.
    + intros (v & Hv & Hin). injection Hv as ->. exists v. split; [assumption|].
      apply String.eqb_refl.
  - split; [discriminate|]. intros (v & Hv & _). discriminate.
Qed.

Lemma eq_opt_Some (a : option string) (k : string) :
  Py.eq_opt a k = true <-> a = Some k.
Proof.
  destruct a as [x|]; simpl.
  - rewrite String.eqb_eq. split; [intros ->; reflexivity | congruence].
  - split; discriminate.
Qed.

Lemma tag_matches_spec (g : globals) (t : tag) :
  tag_matches g t = true <->
  Key t = Some (EXCLUDE_TAG_KEY g)
  /\ exists v, Value t = Some v /\ In v (EXCLUDE_TAG_VALUES g).
Proof.
  unfold tag_matches. rewrite andb_true_iff, eq_opt_Some, contains_In. reflexivity.
Qed.

Lemma should_exclude_loop_existsb (g : globals) (tags : list tag) :
  should_exclude_loop g tags = existsb (tag_matches g) tags.
Proof.
  induction tags as [|t rest IH]; simpl; [reflexivity|].
  rewrite IH. destruct (tag_matches g t); reflexivity.
Qed.

Lemma should_exclude_true_iff (g : globals) (inst : instance) :
  should_exclude g inst = true <-> has_exempt_tag g inst.
Proof.
  unfold should_exclude, has_exempt_tag.
  rewrite should_exclude_loop_existsb, existsb_exists. split.
  - intros (t & Hin & Hm). apply tag_matches_spec in Hm as (Hk & v & Hv & Hinv).
    exists t, v. auto.
  - intros (t & v & Hin & Hk & Hv & Hinv). exists t. split; [assumption|].
    apply tag_matches_spec. eauto.
Qed.

Lemma should_exclude_false_iff (g : globals) (inst : instance) :
  should_exclude g inst = false <-> ~ has_exempt_tag g inst.
Proof.
  rewrite <- should_exclude_true_iff. destruct (should_exclude g inst); split;
    congruence.
Qed.

Lemma first_occurrence_unique (g : globals) (tags : list tag) :
  key_unique (EXCLUDE_TAG_KEY g) tags ->
  should_exclude_loop g tags =
  match first_occurrence (EXCLUDE_TAG_KEY g) tags with
  | Some v => Py.contains (EXCLUDE_TAG_VALUES g) v
  | None => false
  end.
Proof.
  induction tags as [|t rest IH]; simpl; [reflexivity|].
  intros [Hhead Hrest]. unfold tag_matches at 1.
  destruct (Py.eq_opt (Key t) (EXCLUDE_TAG_KEY g)) eqn:Hk; simpl.
  - destruct (Py.contains (EXCLUDE_TAG_VALUES g) (Value t)); [reflexivity|].
    rewrite should_exclude_loop_existsb.
    apply not_true_is_false. intros Hex. apply existsb_exists in Hex as (u & Hin & Hm).
    unfold tag_matches in Hm. rewrite (Hhead eq_refl u Hin) in Hm. discriminate.
  - apply IH. exact Hrest.
Qed.

(* ===================================================================== *)
(** ** The blocks of the handler, run against an arbitrary world *)
(* ===================================================================== *)

Section Runs.

Context {W : Type}.
Variable g : globals.
Variable svc : services W.

Lemma for_instances_run (insts : list instance) (acc : list (option string)) (w : W) :
  for_instances g insts acc w
  = (Ok (acc ++ map InstanceId (filter (fun i => negb (should_exclude g i)) insts))%list, w, skip_logs g insts).
Proof.
  revert acc. induction insts as [|inst rest IH]; intros acc; simpl.
  - unfold ret. rewrite app_nil_r. reflexivity.
  - destruct (should_exclude g inst) eqn:Hex; simpl.
    + unfold bind, logger_info, emit. rewrite IH. reflexivity.
    + rewrite IH, <- app_assoc. reflexivity.
Qed.

Lemma for_reservations_run (rs : list reservation) (acc : list (option string)) (w : W) :
  for_reservations g rs acc w
  = (Ok (acc ++ map InstanceId
                 (filter (fun i => negb (should_exclude g i)) (flat_map (fun r => get_or_nil (Instances r)) rs)))%list,
     w,
     skip_logs g (flat_map (fun r => get_or_nil (Instances r)) rs)).
Proof.
  revert acc. induction rs as [|r rest IH]; intros acc; simpl.
  - unfold ret. rewrite app_nil_r. reflexivity.
  - unfold bind. rewrite for_instances_run, IH.
    rewrite filter_app, map_app, app_assoc.
    unfold skip_logs. rewrite flat_map_app. reflexivity.
Qed.

(** Steps 1 and 2 never raise once the fetch has returned. *)
Lemma filter_step_run (resp : describe_response) (w : W) :
  for_reservations g (get_or_nil (Reservations resp)) [] w
  = (Ok (to_stop g resp), w, skip_logs g (fetched resp)).
Proof. rewrite for_reservations_run. reflexivity. Qed.

(** The error block always re-raises; it publishes once when a topic is
    configured and not at all otherwise, whatever the publish answers. *)
Lemma handler_except_run (e : exception) (w : W) :
  exists w',
    handler_except g svc e w
    = (Raised e, w',
       EvLogException "Lambda execution failed" e
       :: (if Py.truthy_opt (SNS_TOPIC_ARN g)
           then [EvPublish (topic_arn g) "EC2 Stop Lambda Error" (exc_str e)]
           else [])).
Proof.
  unfold handler_except, notify_error, bind, logger_exception, emit, raise.
  destruct (Py.truthy_opt (SNS_TOPIC_ARN g)); simpl.
  - unfold try_except, sns_publish, call, except_Exception, ret.
    destruct (publish svc (topic_arn g) "EC2 Stop Lambda Error" (exc_str e) w)
      as [[[]|e'] w1]; simpl; eexists; reflexivity.
  - eexists; reflexivity.
Qed.

Lemma describe_run (w : W) :
  ec2_describe_instances svc running_filter w
  = (fst (describe_instances svc running_filter w),
     snd (describe_instances svc running_filter w),
     [EvDescribe running_filter]).
Proof.
  unfold ec2_describe_instances, call.
  destruct (describe_instances svc running_filter w); reflexivity.
Qed.

Lemma stop_or_skip_nil (w : W) :
  stop_or_skip svc [] w
  = (Ok "No eligible instances to stop.", w,
     [EvLogInfo "No eligible instances to stop."]).
Proof. reflexivity. Qed.

Lemma stop_or_skip_cons (i : option string) (ids : list (option string)) (w : W) :
  stop_or_skip svc (i :: ids) w
  = match stop_instances svc (i :: ids) w with
    | (Ok _, w2) =>
        (Ok ("Stopped EC2 instances: " ++ Py.repr_list (i :: ids)), w2,
         [EvLogInfo ("Stopping instances: " ++ Py.repr_list (i :: ids));
          EvStop (i :: ids)])
    | (Raised e, w2) =>
        (Raised e, w2,
         [EvLogInfo ("Stopping instances: " ++ Py.repr_list (i :: ids));
          EvStop (i :: ids)])
    end.
Proof.
  unfold stop_or_skip, bind, logger_info, emit, ec2_stop_instances, call, ret.
  destruct (stop_instances svc (i :: ids) w) as [[[]|e] w2]; reflexivity.
Qed.

Lemma notify_no_topic (message : string) (w : W) :
  Py.truthy_opt (SNS_TOPIC_ARN g) = false ->
  notify g svc message w = (Ok tt, w, []).
Proof. intros H. unfold notify. rewrite H. reflexivity. Qed.

Lemma notify_topic (message : string) (w : W) :
  Py.truthy_opt (SNS_TOPIC_ARN g) = true ->
  notify g svc message w
  = match publish svc (topic_arn g) "EC2 Stop Notification" message w with
    | (Ok _, w3) =>
        (Ok tt, w3, [EvPublish (topic_arn g) "EC2 Stop Notification" message])
    | (Raised e, w3) =>
        if is_ClientError e
        then (Ok tt, w3,
              [EvPublish (topic_arn g) "EC2 Stop Notification" message;
               EvLogError ("Failed to publish SNS message: " ++ exc_str e)])
        else (Raised e, w3, [EvPublish (topic_arn g) "EC2 Stop Notification" message])
    end.
Proof.
  intros H. unfold notify. rewrite H.
  unfold try_except, sns_publish, call, except_ClientError, logger_error, emit.
  destruct (publish svc (topic_arn g) "EC2 Stop Notification" message w)
    as [[[]|e] w3]; [reflexivity|].
  destruct (is_ClientError e); reflexivity.
Qed.

(** The [try] body, by what steps 1-3 and the notification do. *)
Lemma handler_body_fetch_raises (w : W) e w1 :
  describe_instances svc running_filter w = (Raised e, w1) ->
  handler_body g svc w = (Raised e, w1, [EvDescribe running_filter]).
Proof.
  intros Hd. unfold handler_body, bind. rewrite describe_run, Hd. reflexivity.
Qed.

Lemma handler_body_stop_raises (w : W) resp w1 e w2 :
  describe_instances svc running_filter w = (Ok resp, w1) ->
  to_stop g resp <> [] ->
  stop_instances svc (to_stop g resp) w1 = (Raised e, w2) ->
  handler_body g svc w = (Raised e, w2, steps_trace g resp).
Proof.
  intros Hd Hne Hs. unfold handler_body, bind, steps_trace.
  rewrite describe_run, Hd. cbn [fst snd]. rewrite filter_step_run.
  destruct (to_stop g resp) as [|i ids]; [congruence|].
  rewrite stop_or_skip_cons, Hs. reflexivity.
Qed.

Lemma handler_body_steps_ok (w : W) resp w2 :
  steps_ok g svc w resp w2 ->
  handler_body g svc w
  = match notify g svc (summary (to_stop g resp)) w2 with
    | (Ok _, w3, t) =>
        (Ok {| status := "ok"; message := summary (to_stop g resp) |}, w3,
         (steps_trace g resp ++ t)%list)
    | (Raised e, w3, t) => (Raised e, w3, (steps_trace g resp ++ t)%list)
    end.
Proof.
  intros (w1 & Hd & Hs). unfold handler_body, bind, steps_trace.
  rewrite describe_run, Hd. cbn [fst snd]. rewrite filter_step_run.
  destruct (to_stop g resp) as [|i ids].
  - subst w2. rewrite stop_or_skip_nil. cbn [summary].
    destruct (notify g svc "No eligible instances to stop." w1) as [[[[]|e] w3] t];
      unfold ret; cbn [app]; rewrite <- ?app_assoc, ?app_nil_r; reflexivity.
  - rewrite stop_or_skip_cons, Hs. cbn [summary].
    destruct (notify g svc ("Stopped EC2 instances: " ++ Py.repr_list (i :: ids)) w2)
      as [[[[]|e] w3] t];
      unfold ret; cbn [app]; rewrite <- ?app_assoc, ?app_nil_r; reflexivity.
Qed.

End Runs.

Section Cases.

Context {W : Type}.
Variable g : globals.
Variable svc : services W.

(** Once steps 1-3 went through, the run is decided by the notification. *)
Lemma notify_cases (w : W) resp w2 :
  steps_ok g svc w resp w2 ->
  run_case g svc w
    (match
        match notify g svc (summary (to_stop g resp)) w2 with
        | (Ok _, w3, t) =>
            (Ok {| status := "ok"; message := summary (to_stop g resp) |}, w3,
             (steps_trace g resp ++ t)%list)
        | (Raised e, w3, t) => (Raised e, w3, (steps_trace g resp ++ t)%list)
        end
      with
      | (Ok a, w1, t1) => (Ok a, w1, t1)
      | (Raised e, w1, t1) =>
          let '(r, w', t2) := handler_except g svc e w1 in (r, w', (t1 ++ t2)%list)
      end).
Proof.
  intros Hok.
  destruct (Py.truthy_opt (SNS_TOPIC_ARN g)) eqn:Harn.
  - rewrite (notify_topic g svc _ _ Harn).
    destruct (publish svc (topic_arn g) "EC2 Stop Notification"
                      (summary (to_stop g resp)) w2) as [[[]|e] w3] eqn:Hp.
    + eapply RunPublished; eassumption.
    + destruct (is_ClientError e) eqn:Hce.
      * eapply RunPublishClientError; eassumption.
      * destruct (handler_except_run g svc e w3) as [w' ->].
        rewrite <- app_assoc. cbn [app].
        eapply RunPublishOtherError; eassumption.
  - rewrite (notify_no_topic g svc _ _ Harn). rewrite app_nil_r.
    eapply RunNoTopic; eassumption.
Qed.

Lemma lambda_handler_unfold {E C : Type} (event : E) (context : C) (w : W) :
  lambda_handler g svc event context w
  = match handler_body g svc w with
    | (Ok a, w1, t1) => (Ok a, w1, t1)
    | (Raised e, w1, t1) =>
        let '(r, w2, t2) := handler_except g svc e w1 in (r, w2, (t1 ++ t2)%list)
    end.
Proof. reflexivity. Qed.

(** Every run of the handler is one of the six cases. *)
Lemma lambda_handler_run_case {E C : Type} (event : E) (context : C) (w : W) :
  run_case g svc w (lambda_handler g svc event context w).
Proof.
  rewrite lambda_handler_unfold.
  destruct (describe_instances svc running_filter w) as [[resp|e] w1] eqn:Hd.
  2:{ rewrite (handler_body_fetch_raises g svc w e w1 Hd).
      destruct (handler_except_run g svc e w1) as [w' ->].
      eapply RunFetchRaises; eassumption. }
  destruct (to_stop g resp) as [|i ids] eqn:Hids.
  - assert (Hok : steps_ok g svc w resp w1).
    { exists w1. rewrite Hids. auto. }
    rewrite (handler_body_steps_ok g svc w resp w1 Hok).
    apply notify_cases; assumption.
  - destruct (stop_instances svc (i :: ids) w1) as [[[]|e] w2] eqn:Hs.
    + assert (Hok : steps_ok g svc w resp w2).
      { exists w1. rewrite Hids. auto. }
      rewrite (handler_body_steps_ok g svc w resp w2 Hok).
      apply notify_cases; assumption.
    + assert (Hne : to_stop g resp <> []) by (rewrite Hids; discriminate).
      rewrite <- Hids in Hs.
      rewrite (handler_body_stop_raises g svc w resp w1 e w2 Hd Hne Hs).
      destruct (handler_except_run g svc e w2) as [w' ->].
      eapply RunStopRaises; eassumption.
Qed.

End Cases.

(* ===================================================================== *)
(** ** Traces of the handler's blocks *)
(* ===================================================================== *)

Lemma stop_calls_app (t1 t2 : list event) :
  stop_calls (t1 ++ t2) = (stop_calls t1 ++ stop_calls t2)%list.
Proof. apply flat_map_app. Qed.

Lemma publish_calls_app (t1 t2 : list event) :
  publish_calls (t1 ++ t2) = (publish_calls t1 ++ publish_calls t2)%list.
Proof. apply flat_map_app. Qed.

Lemma describe_calls_app (t1 t2 : list event) :
  describe_calls (t1 ++ t2) = (describe_calls t1 ++ describe_calls t2)%list.
Proof. apply flat_map_app. Qed.

Lemma skip_logs_silent (g : globals) (insts : list instance) :
  stop_calls (skip_logs g insts) = []
  /\ publish_calls (skip_logs g insts) = []
  /\ describe_calls (skip_logs g insts) = [].
Proof.
  induction insts as [|i rest (IH1 & IH2 & IH3)]; [repeat split|].
  simpl. destruct (should_exclude g i); simpl; auto.
Qed.

Lemma steps_trace_stop_calls (g : globals) (resp : describe_response) :
  stop_calls (steps_trace g resp)
  = match to_stop g resp with [] => [] | ids => [ids] end.
Proof.
  unfold steps_trace. rewrite stop_calls_app. simpl.
  rewrite (proj1 (skip_logs_silent g _)).
  destruct (to_stop g resp); reflexivity.
Qed.

Lemma steps_trace_publish_calls (g : globals) (resp : describe_response) :
  publish_calls (steps_trace g resp) = [].
Proof.
  unfold steps_trace. rewrite publish_calls_app. simpl.
  rewrite (proj1 (proj2 (skip_logs_silent g _))).
  destruct (to_stop g resp); reflexivity.
Qed.

Lemma steps_trace_describe_calls (g : globals) (resp : describe_response) :
  describe_calls (steps_trace g resp) = [running_filter].
Proof.
  unfold steps_trace. rewrite describe_calls_app. simpl.
  rewrite (proj2 (proj2 (skip_logs_silent g _))).
  destruct (to_stop g resp); reflexivity.
Qed.

Lemma error_trace_stop_calls (g : globals) (e : exception) :
  stop_calls (error_trace g e) = [].
Proof. unfold error_trace. destruct (Py.truthy_opt (SNS_TOPIC_ARN g)); reflexivity. Qed.

Lemma error_trace_publish_calls (g : globals) (e : exception) :
  publish_calls (error_trace g e)
  = if Py.truthy_opt (SNS_TOPIC_ARN g)
    then [(topic_arn g, "EC2 Stop Lambda Error", exc_str e)]
    else [].
Proof. unfold error_trace. destruct (Py.truthy_opt (SNS_TOPIC_ARN g)); reflexivity. Qed.

Lemma stop_calls_describe f t : stop_calls (EvDescribe f :: t) = stop_calls t.
Proof. reflexivity. Qed.

Lemma stop_calls_publish a s m t : stop_calls (EvPublish a s m :: t) = stop_calls t.
Proof. reflexivity. Qed.

Lemma stop_calls_log_error m t : stop_calls (EvLogError m :: t) = stop_calls t.
Proof. reflexivity. Qed.

Lemma stop_calls_nil : stop_calls [] = [].
Proof. reflexivity. Qed.

Lemma publish_calls_describe f t : publish_calls (EvDescribe f :: t) = publish_calls t.
Proof. reflexivity. Qed.

Lemma publish_calls_publish a s m t :
  publish_calls (EvPublish a s m :: t) = (a, s, m) :: publish_calls t.
Proof. reflexivity. Qed.

Lemma publish_calls_log_error m t : publish_calls (EvLogError m :: t) = publish_calls t.
Proof. reflexivity. Qed.

Lemma publish_calls_nil : publish_calls [] = [].
Proof. reflexivity. Qed.

Lemma describe_calls_describe f t :
  describe_calls (EvDescribe f :: t) = f :: describe_calls t.
Proof. reflexivity. Qed.

Lemma describe_calls_publish a s m t :
  describe_calls (EvPublish a s m :: t) = describe_calls t.
Proof. reflexivity. Qed.

Lemma describe_calls_log_error m t : describe_calls (EvLogError m :: t) = describe_calls t.
Proof. reflexivity. Qed.

Lemma describe_calls_nil : describe_calls [] = [].
Proof. reflexivity. Qed.

Lemma error_trace_describe_calls (g : globals) (e : exception) :
  describe_calls (error_trace g e) = [].
Proof. unfold error_trace. destruct (Py.truthy_opt (SNS_TOPIC_ARN g)); reflexivity. Qed.

Create Rewrite HintDb trace.
#[export] Hint Rewrite
  stop_calls_app publish_calls_app
  stop_calls_describe stop_calls_publish stop_calls_log_error stop_calls_nil
  publish_calls_describe publish_calls_publish publish_calls_log_error publish_calls_nil
  describe_calls_app
  describe_calls_describe describe_calls_publish describe_calls_log_error describe_calls_nil
  steps_trace_stop_calls steps_trace_publish_calls steps_trace_describe_calls
  error_trace_stop_calls error_trace_publish_calls error_trace_describe_calls
  app_nil_r app_nil_l : trace.

(** Splits a statement about a run into the six cases and computes the
    remote calls of each trace. *)
Ltac run_cases R :=
  destruct R as [ex wd wf Hd
                | resp' wd ex ws wf Hd Hne Hs
                | resp' ws Hok Harn
                | resp' ws wp Hok Harn Hp
                | resp' ws ex wp Hok Harn Hp Hce
                | resp' ws ex wp wf Hok Harn Hp Hce];
  unfold trace_of, result_of; cbn [fst snd]; autorewrite with trace.

(** Membership in the list of identifiers to stop, in the words of the data
    model. *)
Lemma to_stop_In (g : globals) (resp : describe_response) (id : option string) :
  In id (to_stop g resp) <->
  exists inst, In inst (fetched resp) /\ ~ has_exempt_tag g inst /\ InstanceId inst = id.
Proof.
  unfold to_stop. rewrite in_map_iff. split.
  - intros (inst & Hid & Hin). apply filter_In in Hin as [Hin Hne].
    exists inst. repeat split; [assumption | | assumption].
    apply should_exclude_false_iff. apply negb_true_iff. exact Hne.
  - intros (inst & Hin & Hne & Hid). exists inst. split; [assumption|].
    apply filter_In. split; [assumption|].
    apply negb_true_iff, should_exclude_false_iff. exact Hne.
Qed.

Lemma to_stop_nil_iff (g : globals) (resp : describe_response) :
  to_stop g resp = [] <-> forall inst, In inst (fetched resp) -> has_exempt_tag g inst.
Proof.
  split.
  - intros Hnil inst Hin.
    apply should_exclude_true_iff.
    destruct (should_exclude g inst) eqn:Hex; [reflexivity|].
    assert (Hid : In (InstanceId inst) (to_stop g resp)).
    { apply to_stop_In. exists inst. repeat split; [assumption|].
      apply should_exclude_false_iff. exact Hex. }
    rewrite Hnil in Hid. destruct Hid.
  - intros Hall. destruct (to_stop g resp) as [|id ids] eqn:Hids; [reflexivity|].
    assert (Hid : In id (to_stop g resp)) by (rewrite Hids; left; reflexivity).
    apply to_stop_In in Hid as (inst & Hin & Hne & _).
    exfalso. apply Hne, Hall, Hin.
Qed.

(* ===================================================================== *)
(** ** [repr] of a list of identifiers is one-to-one *)
(* ===================================================================== *)

Lemma string_app_assoc (a b c : string) : (a ++ b) ++ c = a ++ (b ++ c).
Proof. induction a as [|x a IH]; simpl; [reflexivity | rewrite IH; reflexivity]. Qed.

Lemma string_app_inv_head (p a b : string) : p ++ a = p ++ b -> a = b.
Proof.
  induction p as [|x p IH]; simpl; intros H; [exact H|].
  injection H as H. auto.
Qed.

Lemma repr_quote_cases (s : string) :
  Py.repr_quote s = Py.squote \/ Py.repr_quote s = Py.dquote.
Proof.
  unfold Py.repr_quote.
  destruct (Py.mem_char Py.squote s && negb (Py.mem_char Py.dquote s)); auto.
Qed.

Lemma unrepr_repr_char (q c : ascii) (rest : string) :
  q = Py.squote \/ q = Py.dquote ->
  Py.unrepr_char q (Py.repr_char q c ++ rest) = Some (c, rest).
Proof.
  intros [-> | ->]; destruct c as [[] [] [] [] [] [] [] []]; reflexivity.
Qed.

Lemma unrepr_delimiter (q : ascii) (rest : string) :
  Py.unrepr_char q (String q rest) = None.
Proof. simpl. rewrite Ascii.eqb_refl. reflexivity. Qed.

Lemma repr_body_inj (q : ascii) (s1 s2 r1 r2 : string) :
  q = Py.squote \/ q = Py.dquote ->
  Py.repr_body q s1 ++ String q r1 = Py.repr_body q s2 ++ String q r2 ->
  s1 = s2 /\ r1 = r2.
Proof.
  intros Hq. revert s2.
  induction s1 as [|c1 s1 IH]; intros [|c2 s2]; simpl; intros H.
  - injection H as ->. auto.
  - apply (f_equal (Py.unrepr_char q)) in H.
    rewrite string_app_assoc, unrepr_delimiter, (unrepr_repr_char q c2 _ Hq) in H.
    discriminate.
  - apply (f_equal (Py.unrepr_char q)) in H.
    rewrite string_app_assoc, unrepr_delimiter, (unrepr_repr_char q c1 _ Hq) in H.
    discriminate.
  - apply (f_equal (Py.unrepr_char q)) in H.
    rewrite !string_app_assoc in H.
    rewrite (unrepr_repr_char q c1 _ Hq), (unrepr_repr_char q c2 _ Hq) in H.
    injection H as -> H. destruct (IH s2 H) as [-> ->]. auto.
Qed.

(** [repr] is a prefix code: what follows a rendered identifier is
    determined as well. *)
Lemma repr_inj_prefix (x1 x2 : option string) (r1 r2 : string) :
  Py.repr x1 ++ r1 = Py.repr x2 ++ r2 -> x1 = x2 /\ r1 = r2.
Proof.
  destruct x1 as [s1|], x2 as [s2|]; unfold Py.repr, Py.repr_str; simpl.
  - rewrite !string_app_assoc. simpl. intros H. injection H as Hq H.
    rewrite <- Hq in H.
    destruct (repr_body_inj _ s1 s2 r1 r2 (repr_quote_cases s1) H) as [-> ->]. auto.
  - destruct (repr_quote_cases s1) as [-> | ->]; discriminate.
  - destruct (repr_quote_cases s2) as [-> | ->]; discriminate.
  - intros H. injection H as ->. auto.
Qed.

Lemma repr_first_char (x : option string) :
  exists c rest, Py.repr x = String c rest /\ c <> "]"%char /\ c <> ","%char.
Proof.
  destruct x as [s|]; simpl.
  - unfold Py.repr_str.
    destruct (repr_quote_cases s) as [-> | ->]; eexists _, _;
      (split; [reflexivity | split; discriminate]).
  - eexists _, _. split; [reflexivity | split; discriminate].
Qed.

Lemma join_repr_inj (l1 l2 : list (option string)) :
  Py.join ", " (map Py.repr l1) ++ "]" = Py.join ", " (map Py.repr l2) ++ "]" ->
  l1 = l2.
Proof.
  revert l2. induction l1 as [|x1 l1 IH]; intros [|x2 l2] H.
  - reflexivity.
  - exfalso. destruct (repr_first_char x2) as (c & rest & Hx & Hc & _).
    cbn [map Py.join] in H. rewrite Hx in H.
    destruct (map Py.repr l2); simpl in H; injection H as H _; congruence.
  - exfalso. destruct (repr_first_char x1) as (c & rest & Hx & Hc & _).
    cbn [map Py.join] in H. rewrite Hx in H.
    destruct (map Py.repr l1); simpl in H; injection H as H _; congruence.
  - assert (Hstep : forall x l,
               Py.join ", " (map Py.repr (x :: l)) ++ "]"
               = Py.repr x
                 ++ match l with
                    | [] => "]"
                    | _ => ", " ++ (Py.join ", " (map Py.repr l) ++ "]")
                    end).
    { intros x [|y l]; [reflexivity|].
      cbn [map Py.join]. rewrite !string_app_assoc. reflexivity. }
    rewrite !Hstep in H.
    apply repr_inj_prefix in H as [-> Ht].
    destruct l1 as [|y1 l1], l2 as [|y2 l2]; try discriminate; [reflexivity|].
    f_equal. apply IH. apply (string_app_inv_head ", "). exact Ht.
Qed.

(** The rendering of a list of identifiers determines the list. *)
Lemma repr_list_inj (l1 l2 : list (option string)) :
  Py.repr_list l1 = Py.repr_list l2 -> l1 = l2.
Proof.
  unfold Py.repr_list. intros H. apply (string_app_inv_head "[") in H.
  apply join_repr_inj. exact H.
Qed.

(* ===================================================================== *)
(** ** Properties of the exclusion predicate *)
(* ===================================================================== *)

(** C2. [should_exclude] returns [True] exactly when the instance's tag set
    has an entry whose key is the configured exclusion key and whose value is
    one of the exempt values; with no exempt values it returns [False] for
    every instance; and the exempt values are empty when the environment
    variable [EXCLUDE_TAG_VALUES] is unset. *)
Theorem should_exclude_iff_exempt_tag (g : globals) (inst : instance) :
  (should_exclude g inst = true <->
   exists t, In t (tags_of inst)
             /\ Key t = Some (EXCLUDE_TAG_KEY g)
             /\ exists v, Value t = Some v /\ In v (EXCLUDE_TAG_VALUES g))
  /\ (EXCLUDE_TAG_VALUES g = [] -> should_exclude g inst = false)
  /\ (forall env : environ,
         env "EXCLUDE_TAG_VALUES" = None ->
         EXCLUDE_TAG_VALUES (load_globals env) = []
         /\ should_exclude (load_globals env) inst = false).
Proof.
  split; [|split].
  - rewrite should_exclude_true_iff. unfold has_exempt_tag. split.
    + intros (t & v & Hin & Hk & Hv & Hinv). exists t. eauto.
    + intros (t & Hin & Hk & v & Hv & Hinv). exists t, v. auto.
  - intros Hnil. apply should_exclude_false_iff.
    intros (t & v & _ & _ & _ & Hin). rewrite Hnil in Hin. exact Hin.
  - intros env Hunset.
    assert (Hnil : EXCLUDE_TAG_VALUES (load_globals env) = []).
    { unfold load_globals, environ_get. simpl. rewrite Hunset. reflexivity. }
    split; [exact Hnil|].
    apply should_exclude_false_iff.
    intros (t & v & _ & _ & _ & Hin). rewrite Hnil in Hin. exact Hin.
Qed.

Lemma should_exclude_iff_exempt_tag_witness :
  should_exclude (load_globals Fixtures.env_unset) Fixtures.i2 = false
  /\ should_exclude (load_globals Fixtures.env_prod) Fixtures.i2 = true.
Proof.
  split.
  - apply (proj2 (proj2 (should_exclude_iff_exempt_tag Fixtures.g_prod Fixtures.i2))
                 Fixtures.env_unset).
    reflexivity.
  - apply (proj1 (should_exclude_iff_exempt_tag (load_globals Fixtures.env_prod)
                                                Fixtures.i2)).
    exists {| Key := Some "Environment"; Value := Some "prod" |}.
    split; [left; reflexivity|]. split; [reflexivity|].
    exists "prod". split; [reflexivity | left; reflexivity].
Defined.

(** C7, as the code has it.  A missing, [None] or empty tag list means the
    instance is not excluded.  With several entries under the configured key
    the instance is excluded as soon as any one of them carries an exempt
    value; when at most one entry has the configured key this is the decision
    taken on the first occurrence, i.e. a mapping lookup. *)
Theorem should_exclude_tolerates_tags (g : globals) (inst : instance) :
  (Tags inst = TagsMissing \/ Tags inst = TagsNone \/ Tags inst = TagsList [] ->
   should_exclude g inst = false)
  /\ (should_exclude g inst = true <->
      exists t, In t (tags_of inst)
                /\ Key t = Some (EXCLUDE_TAG_KEY g)
                /\ exists v, Value t = Some v /\ In v (EXCLUDE_TAG_VALUES g))
  /\ (key_unique (EXCLUDE_TAG_KEY g) (tags_of inst) ->
      should_exclude g inst = first_occurrence_decision g inst).
Proof.
  split; [|split].
  - unfold should_exclude, tags_of. intros [-> | [-> | ->]]; reflexivity.
  - unfold should_exclude. rewrite should_exclude_loop_existsb, existsb_exists.
    split; intros (t & Hin & Hm); exists t; (split; [assumption|]);
      apply tag_matches_spec; exact Hm.
  - intros Hu. unfold should_exclude, first_occurrence_decision.
    apply first_occurrence_unique. exact Hu.
Qed.

Lemma should_exclude_tolerates_tags_witness :
  should_exclude Fixtures.g_prod Fixtures.untagged = false
  /\ should_exclude Fixtures.g_prod Fixtures.i2
     = first_occurrence_decision Fixtures.g_prod Fixtures.i2.
Proof.
  split.
  - apply (proj1 (should_exclude_tolerates_tags Fixtures.g_prod Fixtures.untagged)).
    left. reflexivity.
  - apply (proj2 (proj2 (should_exclude_tolerates_tags Fixtures.g_prod Fixtures.i2))).
    simpl. split; [|exact I]. intros _ u [].
Defined.

(** C7 as stated fails: with tags [Environment=dev, Environment=prod] and
    exempt value [prod], the first occurrence of the key is not exempt, yet
    [should_exclude] returns [True]. *)
Lemma should_exclude_not_first_occurrence :
  first_occurrence "Environment" (tags_of Fixtures.i3) = Some (Some "dev")
  /\ first_occurrence_decision Fixtures.g_prod Fixtures.i3 = false
  /\ should_exclude Fixtures.g_prod Fixtures.i3 = true
  /\ should_exclude Fixtures.g_prod Fixtures.i3
     <> first_occurrence_decision Fixtures.g_prod Fixtures.i3.
Proof. repeat split. discriminate. Qed.

(* ===================================================================== *)
(** ** Properties of the handler *)
(* ===================================================================== *)

Section HandlerProperties.

Context {W E C : Type}.
Variable g : globals.
Variable svc : services W.
Variable event : E.
Variable context : C.

(** The stop requests of a run: none when the fetch raised, otherwise at most
    the one for the non-excluded identifiers. *)
Lemma run_stop_calls (w : W) (ids : list (option string)) :
  In ids (stop_calls (trace_of (lambda_handler g svc event context w))) ->
  exists resp w1,
    describe_instances svc running_filter w = (Ok resp, w1)
    /\ ids = to_stop g resp /\ ids <> [].
Proof.
  pose proof (lambda_handler_run_case g svc event context w) as R.
  remember (lambda_handler g svc event context w) as run eqn:Hrun.
  run_cases R; try (intros []);
    try destruct Hok as (wd & Hd & Hs);
    (destruct (to_stop g resp') as [|i l] eqn:Hids; [intros [] | intros [<- | []]]);
    exists resp', wd; rewrite Hids; repeat split; try assumption; discriminate.
Qed.

(** Every run fetches exactly once, asking for the running instances. *)
Lemma run_describe_calls (w : W) :
  describe_calls (trace_of (lambda_handler g svc event context w)) = [running_filter].
Proof.
  pose proof (lambda_handler_run_case g svc event context w) as R.
  remember (lambda_handler g svc event context w) as run eqn:Hrun.
  run_cases R; reflexivity.
Qed.

Lemma to_stop_nonempty (resp : describe_response) :
  (exists inst, In inst (fetched resp) /\ ~ has_exempt_tag g inst) ->
  exists i l, to_stop g resp = i :: l.
Proof.
  intros (inst & Hin & Hne).
  assert (Hid : In (InstanceId inst) (to_stop g resp)).
  { apply to_stop_In. exists inst. auto. }
  destruct (to_stop g resp) as [|i l]; [destruct Hid | eauto].
Qed.

(** The fetch decides which response steps 1-3 worked on. *)
Lemma steps_ok_fetch (w : W) resp w1 resp' w2 :
  describe_instances svc running_filter w = (Ok resp, w1) ->
  steps_ok g svc w resp' w2 ->
  resp' = resp
  /\ match to_stop g resp with
     | [] => w2 = w1
     | ids => stop_instances svc ids w1 = (Ok tt, w2)
     end.
Proof.
  intros Hd (wd & Hd' & Hs). rewrite Hd in Hd'. injection Hd' as <- <-. auto.
Qed.

(** Once the fetch has returned, the stop requests of the run are known. *)
Lemma run_stop_calls_fetched (w : W) resp w1 :
  describe_instances svc running_filter w = (Ok resp, w1) ->
  stop_calls (trace_of (lambda_handler g svc event context w))
  = match to_stop g resp with [] => [] | ids => [ids] end.
Proof.
  intros Hd0.
  pose proof (lambda_handler_run_case g svc event context w) as R.
  remember (lambda_handler g svc event context w) as run eqn:Hrun.
  run_cases R; try destruct Hok as (wd & Hd & Hs);
    rewrite Hd0 in Hd; try discriminate; injection Hd as <- <-; reflexivity.
Qed.

(** A returned outcome: steps 1-3 went through, the outcome is the ok
    outcome with the summary, and the only publish of the run, if a topic is
    configured, is the success notification carrying that summary. *)
Lemma run_returns (w : W) (out : outcome) :
  result_of (lambda_handler g svc event context w) = Ok out ->
  exists resp w2,
    steps_ok g svc w resp w2
    /\ out = {| status := "ok"; message := summary (to_stop g resp) |}
    /\ publish_calls (trace_of (lambda_handler g svc event context w))
       = if Py.truthy_opt (SNS_TOPIC_ARN g)
         then [(topic_arn g, "EC2 Stop Notification", summary (to_stop g resp))]
         else [].
Proof.
  pose proof (lambda_handler_run_case g svc event context w) as R.
  remember (lambda_handler g svc event context w) as run eqn:Hrun.
  run_cases R; intros Hout; try discriminate; injection Hout as <-;
    exists resp', ws; rewrite Harn; auto.
Qed.

(** A success notification always carries the summary of steps 1-3. *)
Lemma run_success_publish (w : W) (a m : string) :
  In (a, "EC2 Stop Notification", m)
     (publish_calls (trace_of (lambda_handler g svc event context w))) ->
  exists resp w2, steps_ok g svc w resp w2 /\ m = summary (to_stop g resp).
Proof.
  pose proof (lambda_handler_run_case g svc event context w) as R.
  remember (lambda_handler g svc event context w) as run eqn:Hrun.
  run_cases R; try destruct (Py.truthy_opt (SNS_TOPIC_ARN g)); intros Hin;
    repeat match goal with
           | H : In _ [] |- _ => destruct H
           | H : In _ (_ :: _) |- _ => destruct H as [H | H]
           | H : (_, _, _) = (_, _, _) |- _ =>
               first [ discriminate H | injection H as _ <-; eauto ]
           end.
Qed.

(** When steps 1-3 go through, the run returns the ok outcome with the
    summary, unless the success notification raises something other than a
    [ClientError]. *)
Lemma run_steps_ok (w : W) resp w2 :
  steps_ok g svc w resp w2 ->
  result_of (lambda_handler g svc event context w)
  = Ok {| status := "ok"; message := summary (to_stop g resp) |}
  \/ exists e w3,
      Py.truthy_opt (SNS_TOPIC_ARN g) = true
      /\ publish svc (topic_arn g) "EC2 Stop Notification" (summary (to_stop g resp)) w2
         = (Raised e, w3)
      /\ is_ClientError e = false
      /\ result_of (lambda_handler g svc event context w) = Raised e.
Proof.
  intros (w1 & Hd0 & Hs0).
  pose proof (lambda_handler_run_case g svc event context w) as R.
  remember (lambda_handler g svc event context w) as run eqn:Hrun.
  run_cases R.
  - rewrite Hd0 in Hd. discriminate.
  - rewrite Hd0 in Hd. injection Hd as <- <-.
    destruct (to_stop g resp); [congruence|]. rewrite Hs0 in Hs. discriminate.
  - destruct (steps_ok_fetch w resp w1 resp' ws Hd0 Hok) as [-> _]. auto.
  - destruct (steps_ok_fetch w resp w1 resp' ws Hd0 Hok) as [-> _]. auto.
  - destruct (steps_ok_fetch w resp w1 resp' ws Hd0 Hok) as [-> _]. auto.
  - destruct (steps_ok_fetch w resp w1 resp' ws Hd0 Hok) as [-> Hs].
    right. exists ex, wp. repeat split; try assumption.
    replace w2 with ws; [assumption|].
    destruct (to_stop g resp); congruence.
Qed.

(** A failure of the fetch or of the stop call is re-raised as it is; the
    only publish of such a run is the error notification, made exactly when a
    topic is configured. *)
Lemma run_primary_failure (w : W) (e : exception) :
  (exists w1, describe_instances svc running_filter w = (Raised e, w1))
  \/ (exists resp w1 w2,
         describe_instances svc running_filter w = (Ok resp, w1)
         /\ to_stop g resp <> []
         /\ stop_instances svc (to_stop g resp) w1 = (Raised e, w2)) ->
  result_of (lambda_handler g svc event context w) = Raised e
  /\ publish_calls (trace_of (lambda_handler g svc event context w))
     = if Py.truthy_opt (SNS_TOPIC_ARN g)
       then [(topic_arn g, "EC2 Stop Lambda Error", exc_str e)]
       else [].
Proof.
  intros Hfail.
  pose proof (lambda_handler_run_case g svc event context w) as R.
  remember (lambda_handler g svc event context w) as run eqn:Hrun.
  destruct Hfail as [(w1 & Hd0) | (resp & w1 & w2 & Hd0 & Hne0 & Hs0)];
    run_cases R; try destruct Hok as (wd & Hd & Hs);
    rewrite Hd0 in Hd; try discriminate.
  - injection Hd as <-. auto.
  - injection Hd as <- <-. rewrite Hs0 in Hs. injection Hs as <- _. auto.
  - injection Hd as <- <-. destruct (to_stop g resp); [congruence|].
    rewrite Hs0 in Hs. discriminate.
  - injection Hd as <- <-. destruct (to_stop g resp); [congruence|].
    rewrite Hs0 in Hs. discriminate.
  - injection Hd as <- <-. destruct (to_stop g resp); [congruence|].
    rewrite Hs0 in Hs. discriminate.
  - injection Hd as <- <-. destruct (to_stop g resp); [congruence|].
    rewrite Hs0 in Hs. discriminate.
Qed.


(** A run whose fetch raises makes no stop request. *)
Lemma run_stop_calls_fetch_raised (w : W) (e : exception) (w1 : W) :
  describe_instances svc running_filter w = (Raised e, w1) ->
  stop_calls (trace_of (lambda_handler g svc event context w)) = [].
Proof.
  intros Hd0.
  pose proof (lambda_handler_run_case g svc event context w) as R.
  remember (lambda_handler g svc event context w) as run eqn:Hrun.
  run_cases R; try destruct Hok as (wd & Hd & Hs);
    rewrite Hd0 in Hd; try discriminate; reflexivity.
Qed.

(** C1. For every run, whatever the services answer.  Once the running-state
    fetch has returned, the stop requests of the run are determined: with
    [ids] the identifiers of the fetched instances minus those whose tag set
    has the exclusion key with an exempt value, the run makes exactly the one
    stop request for [ids], or none when [ids] is empty.  A run whose fetch
    raises makes no stop request.  Hence every stop request of any run
    carries exactly those identifiers, and every identifier in it is the
    identifier of a fetched instance.  The fetch is the only one of the run
    and asks for [instance-state-name = running]. *)
Theorem stop_request_is_fetched_minus_exempt (w : W) :
  (forall resp w1,
      describe_instances svc running_filter w = (Ok resp, w1) ->
      exists ids,
        stop_calls (trace_of (lambda_handler g svc event context w))
        = match ids with [] => [] | _ :: _ => [ids] end
        /\ (forall id, In id ids <->
                       exists inst, In inst (fetched resp)
                                    /\ ~ has_exempt_tag g inst
                                    /\ InstanceId inst = id)
        /\ describe_calls (trace_of (lambda_handler g svc event context w))
           = [ [ {| Name := "instance-state-name"; Values := ["running"] |} ] ])
  /\ (forall e w1,
         describe_instances svc running_filter w = (Raised e, w1) ->
         stop_calls (trace_of (lambda_handler g svc event context w)) = [])
  /\ (forall ids,
         In ids (stop_calls (trace_of (lambda_handler g svc event context w))) ->
         exists resp w1,
           describe_instances svc running_filter w = (Ok resp, w1)
           /\ (forall id, In id ids <->
                          exists inst, In inst (fetched resp)
                                       /\ ~ has_exempt_tag g inst
                                       /\ InstanceId inst = id)
           /\ (forall id, In id ids ->
                          exists inst, In inst (fetched resp) /\ InstanceId inst = id)).
Proof.
  split; [|split].
  - intros resp w1 Hd. exists (to_stop g resp). split; [|split].
    + rewrite (run_stop_calls_fetched w resp w1 Hd).
      destruct (to_stop g resp); reflexivity.
    + intros id. apply to_stop_In.
    + apply run_describe_calls.
  - intros e w1 Hd. exact (run_stop_calls_fetch_raised w e w1 Hd).
  - intros ids Hin. destruct (run_stop_calls w ids Hin) as (resp & w1 & Hd & -> & _).
    exists resp, w1. split; [assumption|]. split.
    + intros id. apply to_stop_In.
    + intros id Hid. apply to_stop_In in Hid as (inst & Hi & _ & Heq). eauto.
Qed.

(** C3. When the fetch returns at least one instance that is not excluded,
    the run issues exactly one stop request; it carries exactly the
    identifiers of the non-excluded fetched instances; any outcome the run
    returns, and any success notification it publishes, has the message
    ["Stopped EC2 instances: "] followed by the rendering of that list, and no
    other list of identifiers has that message; when the stop call returns
    the run does return that outcome, unless the success notification raises
    something other than a [ClientError]. *)
Theorem stop_called_once_when_eligible (w : W) (resp : describe_response) (w1 : W) :
  describe_instances svc running_filter w = (Ok resp, w1) ->
  (exists inst, In inst (fetched resp) /\ ~ has_exempt_tag g inst) ->
  exists ids,
    stop_calls (trace_of (lambda_handler g svc event context w)) = [ids]
    /\ (forall id, In id ids <->
                   exists inst, In inst (fetched resp)
                                /\ ~ has_exempt_tag g inst
                                /\ InstanceId inst = id)
    /\ (forall out,
           result_of (lambda_handler g svc event context w) = Ok out ->
           message out = "Stopped EC2 instances: " ++ Py.repr_list ids)
    /\ (forall ids',
           "Stopped EC2 instances: " ++ Py.repr_list ids'
           = "Stopped EC2 instances: " ++ Py.repr_list ids ->
           ids' = ids)
    /\ (forall a m,
           In (a, "EC2 Stop Notification", m)
              (publish_calls (trace_of (lambda_handler g svc event context w))) ->
           m = "Stopped EC2 instances: " ++ Py.repr_list ids)
    /\ (forall w2,
           stop_instances svc ids w1 = (Ok tt, w2) ->
           result_of (lambda_handler g svc event context w)
           = Ok {| status := "ok";
                   message := "Stopped EC2 instances: " ++ Py.repr_list ids |}
           \/ exists e w3,
               publish svc (topic_arn g) "EC2 Stop Notification"
                       ("Stopped EC2 instances: " ++ Py.repr_list ids) w2
               = (Raised e, w3)
               /\ is_ClientError e = false
               /\ result_of (lambda_handler g svc event context w) = Raised e).
Proof.
  intros Hd Hex. exists (to_stop g resp).
  destruct (to_stop_nonempty resp Hex) as (i & l & Hids).
  assert (Hsum : summary (to_stop g resp)
                 = "Stopped EC2 instances: " ++ Py.repr_list (to_stop g resp)).
  { rewrite Hids. reflexivity. }
  split; [|split; [|split; [|split; [|split]]]].
  - rewrite (run_stop_calls_fetched w resp w1 Hd), Hids. reflexivity.
  - intros id. apply to_stop_In.
  - intros out Hout.
    destruct (run_returns w out Hout) as (resp' & w2 & Hok & -> & _).
    destruct (steps_ok_fetch w resp w1 resp' w2 Hd Hok) as [-> _]. exact Hsum.
  - intros ids' Heq. apply repr_list_inj.
    apply (string_app_inv_head "Stopped EC2 instances: "). exact Heq.
  - intros a m Hin.
    destruct (run_success_publish w a m Hin) as (resp' & w2 & Hok & ->).
    destruct (steps_ok_fetch w resp w1 resp' w2 Hd Hok) as [-> _]. exact Hsum.
  - intros w2 Hs.
    assert (Hok : steps_ok g svc w resp w2).
    { exists w1. split; [assumption|]. rewrite Hids. rewrite Hids in Hs. exact Hs. }
    rewrite <- Hsum.
    destruct (run_steps_ok w resp w2 Hok) as [Hr | (e & w3 & _ & Hp & Hce & Hr)];
      [left; assumption | right; eauto].
Qed.

(** C4. When every fetched instance is excluded (in particular when nothing
    was fetched), the run issues no stop request; any outcome it returns, and
    any success notification it publishes, has the message
    ["No eligible instances to stop."]; and the run does return that outcome,
    unless the success notification raises something other than a
    [ClientError]. *)
Theorem no_stop_when_nothing_eligible (w : W) (resp : describe_response) (w1 : W) :
  describe_instances svc running_filter w = (Ok resp, w1) ->
  (forall inst, In inst (fetched resp) -> has_exempt_tag g inst) ->
  stop_calls (trace_of (lambda_handler g svc event context w)) = []
  /\ (forall out,
         result_of (lambda_handler g svc event context w) = Ok out ->
         message out = "No eligible instances to stop.")
  /\ (forall a m,
         In (a, "EC2 Stop Notification", m)
            (publish_calls (trace_of (lambda_handler g svc event context w))) ->
         m = "No eligible instances to stop.")
  /\ (result_of (lambda_handler g svc event context w)
      = Ok {| status := "ok"; message := "No eligible instances to stop." |}
      \/ exists e w3,
          publish svc (topic_arn g) "EC2 Stop Notification"
                  "No eligible instances to stop." w1
          = (Raised e, w3)
          /\ is_ClientError e = false
          /\ result_of (lambda_handler g svc event context w) = Raised e).
Proof.
  intros Hd Hall. apply to_stop_nil_iff in Hall as Hids.
  assert (Hsum : summary (to_stop g resp) = "No eligible instances to stop.").
  { rewrite Hids. reflexivity. }
  split; [|split; [|split]].
  - rewrite (run_stop_calls_fetched w resp w1 Hd), Hids. reflexivity.
  - intros out Hout.
    destruct (run_returns w out Hout) as (resp' & w2 & Hok & -> & _).
    destruct (steps_ok_fetch w resp w1 resp' w2 Hd Hok) as [-> _]. exact Hsum.
  - intros a m Hin.
    destruct (run_success_publish w a m Hin) as (resp' & w2 & Hok & ->).
    destruct (steps_ok_fetch w resp w1 resp' w2 Hd Hok) as [-> _]. exact Hsum.
  - assert (Hok : steps_ok g svc w resp w1).
    { exists w1. split; [assumption|]. rewrite Hids. reflexivity. }
    rewrite <- Hsum.
    destruct (run_steps_ok w resp w1 Hok) as [Hr | (e & w3 & _ & Hp & Hce & Hr)];
      [left; assumption | right; eauto].
Qed.


(** X17. The publish failures the success path does absorb: when steps 1-3
    went through and the success notification raises a [ClientError], the run
    still returns the ok outcome with its summary message. *)
Theorem publish_client_error_keeps_ok (w : W) (resp : describe_response) (w2 : W)
        (e : exception) (w3 : W) :
  steps_ok g svc w resp w2 ->
  Py.truthy_opt (SNS_TOPIC_ARN g) = true ->
  publish svc (topic_arn g) "EC2 Stop Notification" (summary (to_stop g resp)) w2
  = (Raised e, w3) ->
  is_ClientError e = true ->
  result_of (lambda_handler g svc event context w)
  = Ok {| status := "ok"; message := summary (to_stop g resp) |}.
Proof.
  intros Hok Harn Hp Hce.
  destruct (run_steps_ok w resp w2 Hok) as [Hr | (e' & w3' & _ & Hp' & Hce' & _)];
    [assumption|].
  rewrite Hp in Hp'. injection Hp' as <- _. congruence.
Qed.

(** C9. In a run that returns, with a topic configured, the run publishes
    exactly once: to that topic, with subject ["EC2 Stop Notification"], and
    with a body equal to the [message] of the returned outcome. *)
Theorem published_message_is_returned_message (w : W) (out : outcome) :
  result_of (lambda_handler g svc event context w) = Ok out ->
  Py.truthy_opt (SNS_TOPIC_ARN g) = true ->
  SNS_TOPIC_ARN g = Some (topic_arn g)
  /\ publish_calls (trace_of (lambda_handler g svc event context w))
     = [(topic_arn g, "EC2 Stop Notification", message out)].
Proof.
  intros Hout Harn.
  destruct (run_returns w out Hout) as (resp & w2 & _ & -> & Hp).
  rewrite Harn in Hp. split; [|exact Hp].
  unfold topic_arn. destruct (SNS_TOPIC_ARN g); [reflexivity | discriminate].
Qed.

(** C10. An outcome returned by the handler always has status ['ok']; a
    failure of the fetch or of the stop call is never turned into a returned
    value, it is raised. *)
Theorem returned_status_is_ok (w : W) :
  (forall out,
      result_of (lambda_handler g svc event context w) = Ok out ->
      status out = "ok")
  /\ (forall e,
         (exists w1, describe_instances svc running_filter w = (Raised e, w1))
         \/ (exists resp w1 w2,
                describe_instances svc running_filter w = (Ok resp, w1)
                /\ to_stop g resp <> []
                /\ stop_instances svc (to_stop g resp) w1 = (Raised e, w2)) ->
         result_of (lambda_handler g svc event context w) = Raised e).
Proof.
  split.
  - intros out Hout. destruct (run_returns w out Hout) as (resp & w2 & _ & -> & _).
    reflexivity.
  - intros e Hfail. apply (run_primary_failure w e Hfail).
Qed.

End HandlerProperties.

(** C8. Two running instances, ["i-1"] without tags and ["i-2"] tagged
    [Environment=prod], exclusion key ["Environment"], exempt values
    [["prod"]]: the one stop request of the run is for [['i-1']], the message
    of a returned outcome is ["Stopped EC2 instances: ['i-1']"], and the run
    returns that outcome when the stop call returns, unless the success
    notification raises something other than a [ClientError]. *)
Theorem scenario_one_exempt_one_stopped {W E C : Type} (arn : option string)
        (svc : services W) (event : E) (context : C) (w w1 : W) :
  let g := {| SNS_TOPIC_ARN := arn;
              EXCLUDE_TAG_KEY := "Environment";
              EXCLUDE_TAG_VALUES := ["prod"] |} in
  let resp :=
    {| Reservations :=
         Some [ {| Instances :=
                     Some [ {| InstanceId := Some "i-1"; Tags := TagsList [] |};
                            {| InstanceId := Some "i-2";
                               Tags := TagsList [ {| Key := Some "Environment";
                                                     Value := Some "prod" |} ] |} ] |} ] |} in
  describe_instances svc running_filter w = (Ok resp, w1) ->
  stop_calls (trace_of (lambda_handler g svc event context w)) = [[Some "i-1"]]
  /\ (forall out,
         result_of (lambda_handler g svc event context w) = Ok out ->
         message out = "Stopped EC2 instances: ['i-1']")
  /\ (forall w2,
         stop_instances svc [Some "i-1"] w1 = (Ok tt, w2) ->
         result_of (lambda_handler g svc event context w)
         = Ok {| status := "ok"; message := "Stopped EC2 instances: ['i-1']" |}
         \/ exists e w3,
             publish svc (topic_arn g) "EC2 Stop Notification"
                     "Stopped EC2 instances: ['i-1']" w2
             = (Raised e, w3)
             /\ is_ClientError e = false
             /\ result_of (lambda_handler g svc event context w) = Raised e).
Proof.
  intros g resp Hd.
  assert (Hids : to_stop g resp = [Some "i-1"]) by reflexivity.
  assert (Hsum : summary (to_stop g resp) = "Stopped EC2 instances: ['i-1']")
    by reflexivity.
  split; [|split].
  - rewrite (run_stop_calls_fetched g svc event context w resp w1 Hd), Hids.
    reflexivity.
  - intros out Hout.
    destruct (run_returns g svc event context w out Hout) as (resp' & w2 & Hok & -> & _).
    destruct (steps_ok_fetch g svc w resp w1 resp' w2 Hd Hok) as [-> _]. exact Hsum.
  - intros w2 Hs.
    assert (Hok : steps_ok g svc w resp w2).
    { exists w1. split; [assumption|]. rewrite Hids. exact Hs. }
    rewrite <- Hsum.
    destruct (run_steps_ok g svc event context w resp w2 Hok)
      as [Hr | (e & w3 & _ & Hp & Hce & Hr)]; [left; assumption | right; eauto].
Qed.

(* ===================================================================== *)
(** ** Concrete runs *)
(* ===================================================================== *)

Lemma stop_request_is_fetched_minus_exempt_witness :
  describe_instances (Fixtures.all_ok Fixtures.two_running) running_filter 0
  = (Ok Fixtures.two_running, 1)
  /\ (exists ids,
        stop_calls (trace_of (lambda_handler Fixtures.g_prod
                                              (Fixtures.all_ok Fixtures.two_running)
                                              tt tt 0))
        = match ids with [] => [] | _ :: _ => [ids] end
        /\ (forall id, In id ids <->
                       exists inst, In inst (fetched Fixtures.two_running)
                                    /\ ~ has_exempt_tag Fixtures.g_prod inst
                                    /\ InstanceId inst = id)
        /\ describe_calls (trace_of (lambda_handler Fixtures.g_prod
                                                    (Fixtures.all_ok Fixtures.two_running)
                                                    tt tt 0))
           = [ [ {| Name := "instance-state-name"; Values := ["running"] |} ] ])
  /\ stop_calls (trace_of (lambda_handler Fixtures.g_prod
                                          (Fixtures.all_ok Fixtures.two_running)
                                          tt tt 0)) = [[Some "i-1"]]
  /\ stop_calls (trace_of (lambda_handler Fixtures.g_prod
                                          (Fixtures.scripted (Raised Fixtures.timeout)
                                                             (Ok tt) (fun _ => Ok tt))
                                          tt tt 0)) = [].
Proof.
  split; [reflexivity|]. split; [|split].
  - apply (proj1 (stop_request_is_fetched_minus_exempt
                    Fixtures.g_prod (Fixtures.all_ok Fixtures.two_running) tt tt 0)
                 Fixtures.two_running 1).
    reflexivity.
  - reflexivity.
  - apply (proj1 (proj2 (stop_request_is_fetched_minus_exempt
                           Fixtures.g_prod
                           (Fixtures.scripted (Raised Fixtures.timeout) (Ok tt)
                                              (fun _ => Ok tt)) tt tt 0))
                 Fixtures.timeout 1).
    reflexivity.
Defined.

Lemma stop_called_once_when_eligible_witness :
  describe_instances (Fixtures.all_ok Fixtures.two_running) running_filter 0
  = (Ok Fixtures.two_running, 1)
  /\ (exists inst, In inst (fetched Fixtures.two_running)
                   /\ ~ has_exempt_tag Fixtures.g_prod inst)
  /\ exists ids,
      stop_calls (trace_of (lambda_handler Fixtures.g_prod
                                            (Fixtures.all_ok Fixtures.two_running)
                                            tt tt 0)) = [ids]
      /\ forall out,
          result_of (lambda_handler Fixtures.g_prod
                                    (Fixtures.all_ok Fixtures.two_running) tt tt 0)
          = Ok out ->
          message out = "Stopped EC2 instances: " ++ Py.repr_list ids.
Proof.
  assert (Hex : exists inst, In inst (fetched Fixtures.two_running)
                             /\ ~ has_exempt_tag Fixtures.g_prod inst).
  { exists Fixtures.i1. split; [left; reflexivity|].
    intros (t & v & Hin & _). destruct Hin. }
  split; [reflexivity|]. split; [exact Hex|].
  destruct (stop_called_once_when_eligible
              Fixtures.g_prod (Fixtures.all_ok Fixtures.two_running) tt tt 0
              Fixtures.two_running 1 eq_refl Hex) as (ids & Hcalls & _ & Hmsg & _).
  (* ids is the list of the single stop request *)
  exists ids. split; assumption.
Defined.

Lemma no_stop_when_nothing_eligible_witness :
  describe_instances (Fixtures.all_ok Fixtures.only_exempt) running_filter 0
  = (Ok Fixtures.only_exempt, 1)
  /\ (forall inst, In inst (fetched Fixtures.only_exempt) ->
                   has_exempt_tag Fixtures.g_prod inst)
  /\ stop_calls (trace_of (lambda_handler Fixtures.g_prod
                                          (Fixtures.all_ok Fixtures.only_exempt)
                                          tt tt 0)) = []
  /\ result_of (lambda_handler Fixtures.g_prod (Fixtures.all_ok Fixtures.only_exempt)
                               tt tt 0)
     = Ok {| status := "ok"; message := "No eligible instances to stop." |}.
Proof.
  assert (Hall : forall inst, In inst (fetched Fixtures.only_exempt) ->
                              has_exempt_tag Fixtures.g_prod inst).
  { intros inst [<- | []].
    exists {| Key := Some "Environment"; Value := Some "prod" |}, "prod".
    repeat split; left; reflexivity. }
  split; [reflexivity|]. split; [exact Hall|].
  destruct (no_stop_when_nothing_eligible
              Fixtures.g_prod (Fixtures.all_ok Fixtures.only_exempt) tt tt 0
              Fixtures.only_exempt 1 eq_refl Hall) as (Hcalls & _ & _ & _).
  split; [exact Hcalls | reflexivity].
Defined.



(** C6, at the failing input.  The fetch returns two running instances, the
    stop call returns, and the success notification raises a connect timeout,
    which is not a [ClientError]: the [except ClientError] clause of the
    success path lets it through, although the error path next to it swallows
    every [Exception], and the run raises the timeout instead of returning
    the ok outcome. *)
Lemma publish_other_error_fails_run :
  let svc := Fixtures.scripted (Ok Fixtures.two_running) (Ok tt)
                               (fun _ => Raised Fixtures.timeout) in
  let run := lambda_handler Fixtures.g_prod svc tt tt 0 in
  steps_ok Fixtures.g_prod svc 0 Fixtures.two_running 2
  /\ publish svc Fixtures.topic "EC2 Stop Notification"
             "Stopped EC2 instances: ['i-1']" 2
     = (Raised Fixtures.timeout, 3)
  /\ result_of run = Raised Fixtures.timeout
  /\ forall out, result_of run <> Ok out.
Proof.
  intros svc run. split; [exists 1; split; reflexivity|].
  repeat split. intros out. discriminate.
Qed.

Lemma publish_client_error_keeps_ok_witness :
  let svc := Fixtures.scripted (Ok Fixtures.two_running) (Ok tt)
                               (fun _ => Raised Fixtures.denied) in
  steps_ok Fixtures.g_prod svc 0 Fixtures.two_running 2
  /\ result_of (lambda_handler Fixtures.g_prod svc tt tt 0)
     = Ok {| status := "ok"; message := "Stopped EC2 instances: ['i-1']" |}.
Proof.
  intros svc.
  assert (Hok : steps_ok Fixtures.g_prod svc 0 Fixtures.two_running 2).
  { exists 1. split; reflexivity. }
  split; [exact Hok|].
  apply (publish_client_error_keeps_ok Fixtures.g_prod svc tt tt 0
           Fixtures.two_running 2 Fixtures.denied 3 Hok); reflexivity.
Defined.

Lemma scenario_one_exempt_one_stopped_witness :
  lambda_handler Fixtures.g_prod (Fixtures.all_ok Fixtures.two_running) tt tt 0
  = (Ok {| status := "ok"; message := "Stopped EC2 instances: ['i-1']" |}, 3,
     [EvDescribe running_filter;
      EvLogInfo "Skipping i-2 due to tag exclusion";
      EvLogInfo "Stopping instances: ['i-1']";
      EvStop [Some "i-1"];
      EvPublish Fixtures.topic "EC2 Stop Notification" "Stopped EC2 instances: ['i-1']"])
  /\ stop_calls (trace_of (lambda_handler Fixtures.g_prod
                                          (Fixtures.all_ok Fixtures.two_running)
                                          tt tt 0)) = [[Some "i-1"]].
Proof.
  split; [reflexivity|].
  apply (scenario_one_exempt_one_stopped (Some Fixtures.topic)
           (Fixtures.all_ok Fixtures.two_running) tt tt 0 1).
  reflexivity.
Defined.

Lemma published_message_is_returned_message_witness :
  publish_calls (trace_of (lambda_handler Fixtures.g_prod
                                          (Fixtures.all_ok Fixtures.two_running) tt tt 0))
  = [(Fixtures.topic, "EC2 Stop Notification", "Stopped EC2 instances: ['i-1']")].
Proof.
  apply (published_message_is_returned_message
           Fixtures.g_prod (Fixtures.all_ok Fixtures.two_running) tt tt 0
           {| status := "ok"; message := "Stopped EC2 instances: ['i-1']" |});
    reflexivity.
Defined.

Lemma returned_status_is_ok_witness :
  status {| status := "ok"; message := "Stopped EC2 instances: ['i-1']" |} = "ok"
  /\ result_of (lambda_handler Fixtures.g_prod
                               (Fixtures.scripted (Raised Fixtures.timeout) (Ok tt)
                                                  (fun _ => Ok tt)) tt tt 0)
     = Raised Fixtures.timeout.
Proof.
  split.
  - apply (proj1 (returned_status_is_ok
                    Fixtures.g_prod (Fixtures.all_ok Fixtures.two_running) tt tt 0)).
    reflexivity.
  - apply (proj2 (returned_status_is_ok
                    Fixtures.g_prod
                    (Fixtures.scripted (Raised Fixtures.timeout) (Ok tt) (fun _ => Ok tt))
                    tt tt 0)).
    left. exists 1. reflexivity.
Defined.

(* ===================================================================== *)
(** ** Parsing [EXCLUDE_TAG_VALUES] *)
(* ===================================================================== *)

Lemma lstrip_first (s : string) (c : ascii) (r : string) :
  Py.lstrip s = String c r -> Py.isspace c = false.
Proof.
  induction s as [|a s IH]; simpl; [discriminate|].
  destruct (Py.isspace a) eqn:Ha; [exact IH|].
  intros H. injection H as <- _. exact Ha.
Qed.

Lemma rstrip_last (s r : string) (c : ascii) :
  Py.rstrip s = r ++ String c EmptyString -> Py.isspace c = false.
Proof.
  revert r. induction s as [|a s IH]; intros r; simpl.
  - destruct r; discriminate.
  - destruct (Py.rstrip s) as [|b t] eqn:Ht.
    + destruct (Py.isspace a) eqn:Ha; [destruct r; discriminate|].
      destruct r as [|x r]; simpl; intros H.
      * injection H as <-. exact Ha.
      * injection H as _ H. destruct r; discriminate.
    + destruct r as [|x r]; simpl; intros H; [discriminate|].
      injection H as _ H. apply (IH r). exact H.
Qed.

Lemma rstrip_head (s : string) (c : ascii) (r : string) :
  Py.rstrip s = String c r -> exists r', s = String c r'.
Proof.
  destruct s as [|a s]; simpl; [discriminate|].
  destruct (Py.rstrip s); [destruct (Py.isspace a)|]; intros H;
    try discriminate; injection H as <- _; eauto.
Qed.

Lemma rstrip_idem (s : string) : Py.rstrip (Py.rstrip s) = Py.rstrip s.
Proof.
  induction s as [|a s IH]; simpl; [reflexivity|].
  destruct (Py.rstrip s) as [|b t] eqn:Ht.
  - destruct (Py.isspace a) eqn:Ha; simpl; [reflexivity|]. rewrite Ha. reflexivity.
  - simpl. simpl in IH. rewrite IH. reflexivity.
Qed.

Lemma lstrip_fixed (s : string) :
  (forall c r, s = String c r -> Py.isspace c = false) -> Py.lstrip s = s.
Proof.
  destruct s as [|a s]; simpl; [reflexivity|].
  intros H. rewrite (H a s eq_refl). reflexivity.
Qed.

Lemma strip_first (s : string) (c : ascii) (r : string) :
  Py.strip s = String c r -> Py.isspace c = false.
Proof.
  unfold Py.strip. intros H.
  destruct (rstrip_head _ _ _ H) as [r' Hr']. exact (lstrip_first s c r' Hr').
Qed.

Lemma strip_idem (s : string) : Py.strip (Py.strip s) = Py.strip s.
Proof.
  unfold Py.strip at 1. rewrite lstrip_fixed.
  - unfold Py.strip. apply rstrip_idem.
  - intros c r. apply strip_first.
Qed.

Lemma lstrip_no_char (x : ascii) (s : string) :
  Py.mem_char x s = false -> Py.mem_char x (Py.lstrip s) = false.
Proof.
  induction s as [|a s IH]; simpl; [reflexivity|].
  intros H. apply orb_false_iff in H as [Ha Hs].
  destruct (Py.isspace a); [auto|]. simpl. rewrite Ha, Hs. reflexivity.
Qed.

Lemma rstrip_no_char (x : ascii) (s : string) :
  Py.mem_char x s = false -> Py.mem_char x (Py.rstrip s) = false.
Proof.
  induction s as [|a s IH]; simpl; [reflexivity|].
  intros H. apply orb_false_iff in H as [Ha Hs]. specialize (IH Hs).
  destruct (Py.rstrip s) as [|b t].
  - destruct (Py.isspace a); simpl; [reflexivity|]. rewrite Ha. reflexivity.
  - simpl. simpl in IH. rewrite Ha, IH. reflexivity.
Qed.

Lemma strip_no_char (x : ascii) (s : string) :
  Py.mem_char x s = false -> Py.mem_char x (Py.strip s) = false.
Proof. intros H. apply rstrip_no_char, lstrip_no_char, H. Qed.

Lemma split_no_sep (sep : ascii) (s p : string) :
  In p (Py.split sep s) -> Py.mem_char sep p = false.
Proof.
  revert p. induction s as [|a s IH]; simpl; intros p.
  - intros [<- | []]. reflexivity.
  - destruct (Ascii.eqb a sep) eqn:Ha.
    + intros [<- | Hin]; [reflexivity | auto].
    + destruct (Py.split sep s) as [|w ws].
      * intros [<- | []]. simpl. rewrite Ascii.eqb_sym, Ha. reflexivity.
      * intros [<- | Hin].
        -- simpl. rewrite Ascii.eqb_sym, Ha. simpl. apply IH. left. reflexivity.
        -- apply IH. right. exact Hin.
Qed.

Lemma split_one (sep : ascii) (x : string) :
  Py.mem_char sep x = false -> Py.split sep x = [x].
Proof.
  induction x as [|a x IH]; simpl; [reflexivity|].
  intros H. apply orb_false_iff in H as [Ha Hx].
  rewrite Ascii.eqb_sym, Ha, (IH Hx). reflexivity.
Qed.

Lemma split_app_sep (sep : ascii) (x rest : string) :
  Py.mem_char sep x = false ->
  Py.split sep (x ++ String sep rest) = x :: Py.split sep rest.
Proof.
  induction x as [|a x IH]; simpl.
  - intros _. rewrite Ascii.eqb_refl. reflexivity.
  - intros H. apply orb_false_iff in H as [Ha Hx].
    rewrite Ascii.eqb_sym, Ha, (IH Hx). reflexivity.
Qed.

(** [','.join(ws).split(',') == ws] for a non-empty list of comma-free
    strings. *)
Lemma split_join (x : string) (ws : list string) :
  (forall w, In w (x :: ws) -> Py.mem_char "," w = false) ->
  Py.split "," (Py.join "," (x :: ws)) = x :: ws.
Proof.
  revert x. induction ws as [|y ws IH]; intros x H.
  - apply split_one, H. left. reflexivity.
  - change (Py.join "," (x :: y :: ws)) with (x ++ String "," (Py.join "," (y :: ws))).
    rewrite split_app_sep by (apply H; left; reflexivity).
    rewrite IH; [reflexivity|]. intros w Hw. apply H. right. exact Hw.
Qed.

Lemma parse_exclude_values_In (raw v : string) :
  In v (parse_exclude_values raw) ->
  exists p, In p (Py.split "," raw) /\ v = Py.strip p /\ Py.truthy v = true.
Proof.
  unfold parse_exclude_values. rewrite in_map_iff.
  intros (p & <- & Hin). apply filter_In in Hin as [Hin Ht]. eauto.
Qed.

Lemma parse_exclude_values_clean (raw v : string) :
  In v (parse_exclude_values raw) -> clean_value v.
Proof.
  intros Hin. apply parse_exclude_values_In in Hin as (p & Hp & -> & Ht).
  split; [|split].
  - intros Hnil. rewrite Hnil in Ht. discriminate.
  - apply strip_no_char. exact (split_no_sep _ _ _ Hp).
  - apply strip_idem.
Qed.

Lemma parse_join_clean (vs : list string) :
  (forall v, In v vs -> clean_value v) ->
  parse_exclude_values (Py.join "," vs) = vs.
Proof.
  intros Hclean. destruct vs as [|x vs]; [reflexivity|].
  unfold parse_exclude_values. rewrite split_join.
  2:{ intros w Hw. apply (Hclean w Hw). }
  assert (Hf : filter (fun v => Py.truthy (Py.strip v)) (x :: vs) = x :: vs).
  { apply forallb_filter_id. apply forallb_forall. intros v Hv.
    destruct (Hclean v Hv) as (Hne & _ & ->). destruct v; [congruence | reflexivity]. }
  rewrite Hf. rewrite <- (map_id (x :: vs)) at 2.
  apply map_ext_in. intros v Hv. apply (Hclean v Hv).
Qed.

(** X1. Every value parsed from [EXCLUDE_TAG_VALUES] is non-empty, has no
    comma, is unchanged by [strip], and neither starts nor ends with a
    whitespace character. *)
Theorem parsed_values_are_clean (raw v : string) :
  In v (parse_exclude_values raw) ->
  v <> EmptyString
  /\ Py.mem_char "," v = false
  /\ Py.strip v = v
  /\ (forall c r, v = String c r -> Py.isspace c = false)
  /\ (forall r c, v = r ++ String c EmptyString -> Py.isspace c = false).
Proof.
  intros Hin. destruct (parse_exclude_values_clean raw v Hin) as (Hne & Hc & Hs).
  repeat split; try assumption.
  - intros c r Hv. apply (strip_first v c r). rewrite Hs. exact Hv.
  - intros r c Hv. apply (rstrip_last (Py.lstrip v) r c).
    fold (Py.strip v). rewrite Hs. exact Hv.
Qed.

Lemma parsed_values_are_clean_witness :
  In "staging" (parse_exclude_values " prod ,, staging ,")
  /\ Py.strip "staging" = "staging".
Proof.
  split.
  - right. left. reflexivity.
  - apply (parsed_values_are_clean " prod ,, staging ," "staging").
    right. left. reflexivity.
Defined.

(** X2. Joining clean values (non-empty, comma-free, stripped) with commas and
    parsing the result gives the values back, in order; in particular parsing
    is stable: re-joining what was parsed and parsing again changes nothing. *)
Theorem parse_join_round_trip (vs : list string) (raw : string) :
  ((forall v, In v vs -> clean_value v) ->
   parse_exclude_values (Py.join "," vs) = vs)
  /\ parse_exclude_values (Py.join "," (parse_exclude_values raw))
     = parse_exclude_values raw.
Proof.
  split.
  - apply parse_join_clean.
  - apply parse_join_clean. intros v. apply parse_exclude_values_clean.
Qed.

Lemma parse_join_round_trip_witness :
  parse_exclude_values (Py.join "," ["prod"; "pre prod"]) = ["prod"; "pre prod"].
Proof.
  apply (proj1 (parse_join_round_trip ["prod"; "pre prod"] "")).
  intros v [<- | [<- | []]]; (split; [discriminate | split; reflexivity]).
Defined.

(** X3. Whatever [EXCLUDE_TAG_VALUES] is set to, a tag value that is empty,
    contains a comma, or changes under [strip] is never an exempt value; an
    instance all of whose tag values are of that kind is never excluded. *)
Theorem unclean_values_never_exempt (env : environ) (inst : instance) :
  (forall t v, In t (tags_of inst) -> Value t = Some v ->
               v = EmptyString \/ Py.mem_char "," v = true \/ Py.strip v <> v) ->
  should_exclude (load_globals env) inst = false.
Proof.
  intros Hbad. apply should_exclude_false_iff.
  intros (t & v & Hin & _ & Hv & Hex).
  destruct (parse_exclude_values_clean _ v Hex) as (Hne & Hc & Hs).
  destruct (Hbad t v Hin Hv) as [H | [H | H]]; congruence.
Qed.

Lemma unclean_values_never_exempt_witness :
  EXCLUDE_TAG_VALUES (load_globals Samples.env_padded) = ["prod"]
  /\ should_exclude (load_globals Samples.env_padded) Samples.padded = false.
Proof.
  split; [reflexivity|].
  apply (unclean_values_never_exempt Samples.env_padded Samples.padded).
  intros t v [<- | []] Hv. injection Hv as <-. right. right. discriminate.
Defined.

(* ===================================================================== *)
(** ** More on the exclusion predicate *)
(* ===================================================================== *)

Lemma tag_matches_mono (g g' : globals) (t : tag) :
  EXCLUDE_TAG_KEY g' = EXCLUDE_TAG_KEY g ->
  incl (EXCLUDE_TAG_VALUES g) (EXCLUDE_TAG_VALUES g') ->
  tag_matches g t = true -> tag_matches g' t = true.
Proof.
  intros Hk Hincl Hm. apply tag_matches_spec in Hm as (Hkey & v & Hv & Hin).
  apply tag_matches_spec. rewrite Hk. eauto.
Qed.

Lemma should_exclude_mono (g g' : globals) (inst : instance) :
  EXCLUDE_TAG_KEY g' = EXCLUDE_TAG_KEY g ->
  incl (EXCLUDE_TAG_VALUES g) (EXCLUDE_TAG_VALUES g') ->
  should_exclude g inst = true -> should_exclude g' inst = true.
Proof.
  intros Hk Hincl. unfold should_exclude.
  rewrite !should_exclude_loop_existsb, !existsb_exists.
  intros (t & Hin & Hm). exists t. split; [assumption|].
  exact (tag_matches_mono g g' t Hk Hincl Hm).
Qed.

(** X4. Adding exempt values (same exclusion key) only ever excludes more:
    an instance excluded before is still excluded, and every identifier that
    is to be stopped under the larger set was to be stopped under the smaller
    one. *)
Theorem more_exempt_values_stop_less (g g' : globals) (resp : describe_response) :
  EXCLUDE_TAG_KEY g' = EXCLUDE_TAG_KEY g ->
  incl (EXCLUDE_TAG_VALUES g) (EXCLUDE_TAG_VALUES g') ->
  (forall inst, should_exclude g inst = true -> should_exclude g' inst = true)
  /\ (forall id,
         In id (map InstanceId
                    (filter (fun i => negb (should_exclude g' i)) (fetched resp))) ->
         In id (map InstanceId
                    (filter (fun i => negb (should_exclude g i)) (fetched resp)))).
Proof.
  intros Hk Hincl. split.
  - intros inst. apply should_exclude_mono; assumption.
  - intros id. rewrite !in_map_iff. intros (inst & Hid & Hin).
    apply filter_In in Hin as [Hin Hne]. exists inst. split; [assumption|].
    apply filter_In. split; [assumption|].
    destruct (should_exclude g inst) eqn:Hex; [|reflexivity].
    rewrite (should_exclude_mono g g' inst Hk Hincl Hex) in Hne. discriminate.
Qed.

Lemma more_exempt_values_stop_less_witness :
  should_exclude Samples.g_two_values Fixtures.i2 = true
  /\ In (Some "i-1")
        (map InstanceId
             (filter (fun i => negb (should_exclude Fixtures.g_prod i))
                     (fetched Fixtures.two_running))).
Proof.
  assert (Hincl : incl (EXCLUDE_TAG_VALUES Fixtures.g_prod)
                       (EXCLUDE_TAG_VALUES Samples.g_two_values)).
  { intros v [<- | []]. left. reflexivity. }
  destruct (more_exempt_values_stop_less Fixtures.g_prod Samples.g_two_values
              Fixtures.two_running eq_refl Hincl) as [Hex Hids].
  split.
  - apply Hex. reflexivity.
  - apply Hids. left. reflexivity.
Defined.

(** X5. The decision does not depend on the order of the tags. *)
Theorem should_exclude_tag_order (g : globals) (a b : instance) :
  Permutation (tags_of a) (tags_of b) ->
  should_exclude g a = should_exclude g b.
Proof.
  unfold should_exclude. rewrite !should_exclude_loop_existsb.
  intros HP. induction HP as [|t l l' _ IH|t u l|l l' l'' _ IH1 _ IH2]; simpl.
  - reflexivity.
  - rewrite IH. reflexivity.
  - destruct (tag_matches g t), (tag_matches g u); reflexivity.
  - rewrite IH1. exact IH2.
Qed.

Lemma should_exclude_tag_order_witness :
  should_exclude Fixtures.g_prod Fixtures.i3
  = should_exclude Fixtures.g_prod Samples.i3_swapped.
Proof.
  apply (should_exclude_tag_order Fixtures.g_prod Fixtures.i3 Samples.i3_swapped).
  apply perm_swap.
Defined.

(* ===================================================================== *)
(** ** The summary message *)
(* ===================================================================== *)

(** X6. The summary message determines which identifiers were requested to
    stop, the empty list included: two different lists never share a
    message. *)
Theorem summary_inj (l1 l2 : list (option string)) :
  summary l1 = summary l2 -> l1 = l2.
Proof.
  destruct l1 as [|x1 l1], l2 as [|x2 l2]; simpl; intros H;
    try reflexivity; try discriminate.
  apply repr_list_inj.
  apply (string_app_inv_head "Stopped EC2 instances: "). exact H.
Qed.

Lemma summary_inj_witness : [Some "i-1"] = [Some "i-1"].
Proof. apply (summary_inj [Some "i-1"] [Some "i-1"]). reflexivity. Defined.

(* ===================================================================== *)
(** ** Log lines of the handler's blocks *)
(* ===================================================================== *)

Lemma info_logs_app (t1 t2 : list event) :
  info_logs (t1 ++ t2) = (info_logs t1 ++ info_logs t2)%list.
Proof. apply flat_map_app. Qed.

Lemma error_logs_app (t1 t2 : list event) :
  error_logs (t1 ++ t2) = (error_logs t1 ++ error_logs t2)%list.
Proof. apply flat_map_app. Qed.

Lemma exception_logs_app (t1 t2 : list event) :
  exception_logs (t1 ++ t2) = (exception_logs t1 ++ exception_logs t2)%list.
Proof. apply flat_map_app. Qed.

Lemma skip_logs_lines (g : globals) (insts : list instance) :
  info_logs (skip_logs g insts) = map skip_line (filter (should_exclude g) insts)
  /\ error_logs (skip_logs g insts) = []
  /\ exception_logs (skip_logs g insts) = [].
Proof.
  induction insts as [|i rest (IH1 & IH2 & IH3)]; [repeat split|].
  simpl. destruct (should_exclude g i); simpl; [|auto].
  rewrite IH1. auto.
Qed.

(** The info line that closes steps 1-3. *)
Lemma steps_trace_info_logs (g : globals) (resp : describe_response) :
  info_logs (steps_trace g resp)
  = (map skip_line (filter (should_exclude g) (fetched resp))
     ++ [match to_stop g resp with
         | [] => "No eligible instances to stop."
         | ids => ("Stopping instances: " ++ Py.repr_list ids)%string
         end])%list.
Proof.
  unfold steps_trace. rewrite info_logs_app.
  change (info_logs (EvDescribe running_filter :: skip_logs g (fetched resp)))
    with (info_logs (skip_logs g (fetched resp))).
  rewrite (proj1 (skip_logs_lines g _)).
  destruct (to_stop g resp); reflexivity.
Qed.

Lemma steps_trace_error_logs (g : globals) (resp : describe_response) :
  error_logs (steps_trace g resp) = [].
Proof.
  unfold steps_trace. rewrite error_logs_app.
  change (error_logs (EvDescribe running_filter :: skip_logs g (fetched resp)))
    with (error_logs (skip_logs g (fetched resp))).
  rewrite (proj1 (proj2 (skip_logs_lines g _))).
  destruct (to_stop g resp); reflexivity.
Qed.

Lemma steps_trace_exception_logs (g : globals) (resp : describe_response) :
  exception_logs (steps_trace g resp) = [].
Proof.
  unfold steps_trace. rewrite exception_logs_app.
  change (exception_logs (EvDescribe running_filter :: skip_logs g (fetched resp)))
    with (exception_logs (skip_logs g (fetched resp))).
  rewrite (proj2 (proj2 (skip_logs_lines g _))).
  destruct (to_stop g resp); reflexivity.
Qed.

Lemma error_trace_logs (g : globals) (e : exception) :
  info_logs (error_trace g e) = []
  /\ error_logs (error_trace g e) = ["Lambda execution failed"]
  /\ exception_logs (error_trace g e) = [("Lambda execution failed", e)].
Proof.
  unfold error_trace. destruct (Py.truthy_opt (SNS_TOPIC_ARN g)); repeat split.
Qed.

Lemma error_trace_info_logs g e : info_logs (error_trace g e) = [].
Proof. apply error_trace_logs. Qed.

Lemma error_trace_error_logs g e :
  error_logs (error_trace g e) = ["Lambda execution failed"].
Proof. apply error_trace_logs. Qed.

Lemma error_trace_exception_logs g e :
  exception_logs (error_trace g e) = [("Lambda execution failed", e)].
Proof. apply error_trace_logs. Qed.

Lemma info_logs_describe f t : info_logs (EvDescribe f :: t) = info_logs t.
Proof. reflexivity. Qed.

Lemma info_logs_publish a s m t : info_logs (EvPublish a s m :: t) = info_logs t.
Proof. reflexivity. Qed.

Lemma info_logs_log_error m t : info_logs (EvLogError m :: t) = info_logs t.
Proof. reflexivity. Qed.

Lemma info_logs_nil : info_logs [] = [].
Proof. reflexivity. Qed.

Lemma error_logs_describe f t : error_logs (EvDescribe f :: t) = error_logs t.
Proof. reflexivity. Qed.

Lemma error_logs_publish a s m t : error_logs (EvPublish a s m :: t) = error_logs t.
Proof. reflexivity. Qed.

Lemma error_logs_log_error m t : error_logs (EvLogError m :: t) = m :: error_logs t.
Proof. reflexivity. Qed.

Lemma error_logs_nil : error_logs [] = [].
Proof. reflexivity. Qed.

Lemma exception_logs_describe f t : exception_logs (EvDescribe f :: t) = exception_logs t.
Proof. reflexivity. Qed.

Lemma exception_logs_publish a s m t :
  exception_logs (EvPublish a s m :: t) = exception_logs t.
Proof. reflexivity. Qed.

Lemma exception_logs_log_error m t :
  exception_logs (EvLogError m :: t) = exception_logs t.
Proof. reflexivity. Qed.

Lemma exception_logs_nil : exception_logs [] = [].
Proof. reflexivity. Qed.

#[export] Hint Rewrite
  info_logs_app error_logs_app exception_logs_app
  info_logs_describe info_logs_publish info_logs_log_error info_logs_nil
  error_logs_describe error_logs_publish error_logs_log_error error_logs_nil
  exception_logs_describe exception_logs_publish exception_logs_log_error
  exception_logs_nil
  steps_trace_info_logs steps_trace_error_logs steps_trace_exception_logs
  error_trace_info_logs error_trace_error_logs error_trace_exception_logs : trace.

(* ===================================================================== *)
(** ** More on the handler *)
(* ===================================================================== *)

Section HandlerExtras.

Context {W E C : Type}.
Variable g : globals.
Variable svc : services W.
Variable event : E.
Variable context : C.

(** X7. With no topic configured ([SNS_TOPIC_ARN] unset or empty) no run
    ever publishes, whether it returns or raises. *)
Theorem no_topic_never_publishes (w : W) :
  SNS_TOPIC_ARN g = None \/ SNS_TOPIC_ARN g = Some EmptyString ->
  publish_calls (trace_of (lambda_handler g svc event context w)) = [].
Proof.
  intros Hnone.
  assert (Harn0 : Py.truthy_opt (SNS_TOPIC_ARN g) = false).
  { destruct Hnone as [-> | ->]; reflexivity. }
  pose proof (lambda_handler_run_case g svc event context w) as R.
  remember (lambda_handler g svc event context w) as run eqn:Hrun.
  run_cases R; rewrite ?Harn0; try reflexivity; congruence.
Qed.

(** X8. Every run makes exactly one fetch, at most one stop request, never an
    empty one, and at most two publishes; two publishes happen only in a run
    that raises. *)
Theorem remote_call_budget (w : W) :
  describe_calls (trace_of (lambda_handler g svc event context w)) = [running_filter]
  /\ length (stop_calls (trace_of (lambda_handler g svc event context w))) <= 1
  /\ (forall ids,
         In ids (stop_calls (trace_of (lambda_handler g svc event context w))) ->
         ids <> [])
  /\ length (publish_calls (trace_of (lambda_handler g svc event context w))) <= 2
  /\ (length (publish_calls (trace_of (lambda_handler g svc event context w))) = 2 ->
      exists e, result_of (lambda_handler g svc event context w) = Raised e).
Proof.
  split; [apply run_describe_calls|].
  pose proof (lambda_handler_run_case g svc event context w) as R.
  remember (lambda_handler g svc event context w) as run eqn:Hrun.
  run_cases R;
    try destruct (to_stop g resp') as [|i l];
    try destruct (Py.truthy_opt (SNS_TOPIC_ARN g));
    cbn [length app In];
    (split; [lia|]);
    (split; [intros ids Hin;
             repeat match goal with
                    | H : _ \/ _ |- _ => destruct H
                    | H : False |- _ => destruct H
                    end; subst; discriminate|]);
    (split; [lia|]); intros Hlen; try discriminate Hlen; eauto.
Qed.

Lemma steps_ok_unique (w : W) resp w2 resp' w2' :
  steps_ok g svc w resp w2 -> steps_ok g svc w resp' w2' -> resp' = resp /\ w2' = w2.
Proof.
  intros (w1 & Hd & Hs) Hok'.
  destruct (steps_ok_fetch g svc w resp w1 resp' w2' Hd Hok') as [-> Hs'].
  split; [reflexivity|].
  destruct (to_stop g resp); congruence.
Qed.

Lemma steps_ok_fetch_returned (w : W) resp w2 e wd :
  steps_ok g svc w resp w2 ->
  describe_instances svc running_filter w = (Raised e, wd) -> False.
Proof. intros (w1 & Hd & _) Hd'. congruence. Qed.

Lemma steps_ok_stop_returned (w : W) resp w2 resp' wd e ws :
  steps_ok g svc w resp w2 ->
  describe_instances svc running_filter w = (Ok resp', wd) ->
  to_stop g resp' <> [] ->
  stop_instances svc (to_stop g resp') wd = (Raised e, ws) -> False.
Proof.
  intros (w1 & Hd & Hs) Hd' Hne Hs'. rewrite Hd in Hd'. injection Hd' as <- <-.
  destruct (to_stop g resp); congruence.
Qed.

Lemma to_stop_no_values (resp : describe_response) :
  EXCLUDE_TAG_VALUES g = [] -> to_stop g resp = map InstanceId (fetched resp).
Proof.
  intros Hnil. unfold to_stop. f_equal. apply forallb_filter_id.
  apply forallb_forall. intros inst _. apply negb_true_iff.
  apply should_exclude_false_iff. intros (t & v & _ & _ & _ & Hin).
  rewrite Hnil in Hin. exact Hin.
Qed.

(** X9. With no exempt values configured (the default when
    [EXCLUDE_TAG_VALUES] is unset) nothing is excluded: once the fetch has
    returned, the stop request carries the identifier of every fetched
    instance, in fetch order. *)
Theorem no_exempt_values_stops_all (w : W) (resp : describe_response) (w1 : W) :
  EXCLUDE_TAG_VALUES g = [] ->
  describe_instances svc running_filter w = (Ok resp, w1) ->
  stop_calls (trace_of (lambda_handler g svc event context w))
  = match map InstanceId (fetched resp) with
    | [] => []
    | ids => [ids]
    end.
Proof.
  intros Hnil Hd.
  rewrite (run_stop_calls_fetched g svc event context w resp w1 Hd).
  rewrite (to_stop_no_values resp Hnil). reflexivity.
Qed.

Lemma steps_trace_cons (resp : describe_response) :
  steps_trace g resp = EvDescribe running_filter :: tl (steps_trace g resp).
Proof. reflexivity. Qed.

Lemma steps_trace_tail_calls (resp : describe_response) :
  describe_calls (tl (steps_trace g resp)) = []
  /\ publish_calls (tl (steps_trace g resp)) = [].
Proof.
  split.
  - pose proof (steps_trace_describe_calls g resp) as H.
    rewrite steps_trace_cons, describe_calls_describe in H. injection H as H. exact H.
  - pose proof (steps_trace_publish_calls g resp) as H.
    rewrite steps_trace_cons, publish_calls_describe in H. exact H.
Qed.

(** X10. In every run the fetch comes first, and whatever is published is
    published after the stop request: the trace is the fetch, then a part
    without any publish, then a part without any stop request. *)
Theorem fetch_then_stop_then_publish (w : W) :
  exists t1 t2,
    trace_of (lambda_handler g svc event context w)
    = EvDescribe running_filter :: (t1 ++ t2)%list
    /\ describe_calls t1 = [] /\ publish_calls t1 = []
    /\ describe_calls t2 = [] /\ stop_calls t2 = [].
Proof.
  pose proof (lambda_handler_run_case g svc event context w) as R.
  remember (lambda_handler g svc event context w) as run eqn:Hrun.
  destruct R as [ex wd wf Hd
                | resp' wd ex ws wf Hd Hne Hs
                | resp' ws Hok Harn
                | resp' ws wp Hok Harn Hp
                | resp' ws ex wp Hok Harn Hp Hce
                | resp' ws ex wp wf Hok Harn Hp Hce];
    unfold trace_of; cbn [snd].
  - exists [], (error_trace g ex). repeat split.
    + apply error_trace_describe_calls.
    + apply error_trace_stop_calls.
  - exists (tl (steps_trace g resp')), (error_trace g ex).
    destruct (steps_trace_tail_calls resp') as [Hdc Hpc]. repeat split; try assumption.
    + apply error_trace_describe_calls.
    + apply error_trace_stop_calls.
  - exists (tl (steps_trace g resp')), [].
    destruct (steps_trace_tail_calls resp') as [Hdc Hpc].
    rewrite app_nil_r. repeat split; assumption.
  - exists (tl (steps_trace g resp')),
      [EvPublish (topic_arn g) "EC2 Stop Notification" (summary (to_stop g resp'))].
    destruct (steps_trace_tail_calls resp') as [Hdc Hpc]. repeat split; assumption.
  - exists (tl (steps_trace g resp')),
      [EvPublish (topic_arn g) "EC2 Stop Notification" (summary (to_stop g resp'));
       EvLogError ("Failed to publish SNS message: " ++ exc_str ex)].
    destruct (steps_trace_tail_calls resp') as [Hdc Hpc]. repeat split; assumption.
  - exists (tl (steps_trace g resp')),
      (EvPublish (topic_arn g) "EC2 Stop Notification" (summary (to_stop g resp'))
       :: error_trace g ex).
    destruct (steps_trace_tail_calls resp') as [Hdc Hpc]. repeat split; try assumption.
    + rewrite describe_calls_publish. apply error_trace_describe_calls.
    + rewrite stop_calls_publish. apply error_trace_stop_calls.
Qed.

(** X11. A stop request lists the identifiers in fetch order, reservation by
    reservation, one entry per non-excluded instance (duplicates and missing
    identifiers included). *)
Theorem stop_request_keeps_fetch_order (w : W) (ids : list (option string)) :
  In ids (stop_calls (trace_of (lambda_handler g svc event context w))) ->
  exists resp w1,
    describe_instances svc running_filter w = (Ok resp, w1)
    /\ ids = map InstanceId
                 (filter (fun i => negb (should_exclude g i))
                         (flat_map (fun r => get_or_nil (Instances r))
                                   (get_or_nil (Reservations resp)))).
Proof.
  intros Hin.
  destruct (run_stop_calls g svc event context w ids Hin) as (resp & w1 & Hd & -> & _).
  exists resp, w1. split; [assumption | reflexivity].
Qed.

(** X12. When steps 1-3 went through and the success notification raises
    something that is not a [ClientError], the run raises that exception; the
    stop request was made all the same, and the run publishes twice: the
    success notification, then the error notification with [str(e)]. *)
Theorem publish_other_error_propagates (w : W) (resp : describe_response) (w2 : W)
        (e : exception) (w3 : W) :
  steps_ok g svc w resp w2 ->
  Py.truthy_opt (SNS_TOPIC_ARN g) = true ->
  publish svc (topic_arn g) "EC2 Stop Notification" (summary (to_stop g resp)) w2
  = (Raised e, w3) ->
  is_ClientError e = false ->
  result_of (lambda_handler g svc event context w) = Raised e
  /\ stop_calls (trace_of (lambda_handler g svc event context w))
     = match to_stop g resp with [] => [] | ids => [ids] end
  /\ publish_calls (trace_of (lambda_handler g svc event context w))
     = [(topic_arn g, "EC2 Stop Notification", summary (to_stop g resp));
        (topic_arn g, "EC2 Stop Lambda Error", exc_str e)].
Proof.
  intros Hok0 Harn0 Hp0 Hce0.
  pose proof (lambda_handler_run_case g svc event context w) as R.
  remember (lambda_handler g svc event context w) as run eqn:Hrun.
  run_cases R.
  - destruct (steps_ok_fetch_returned w resp w2 ex wd Hok0 Hd).
  - destruct (steps_ok_stop_returned w resp w2 resp' wd ex ws Hok0 Hd Hne Hs).
  - congruence.
  - destruct (steps_ok_unique w resp w2 resp' ws Hok0 Hok) as [-> ->]. congruence.
  - destruct (steps_ok_unique w resp w2 resp' ws Hok0 Hok) as [-> ->]. congruence.
  - destruct (steps_ok_unique w resp w2 resp' ws Hok0 Hok) as [-> ->].
    rewrite Hp0 in Hp. injection Hp as <- _. rewrite Harn. auto.
Qed.

(** The info lines of a run whose fetch returned. *)
Lemma run_info_logs (w : W) (resp : describe_response) (w1 : W) :
  describe_instances svc running_filter w = (Ok resp, w1) ->
  info_logs (trace_of (lambda_handler g svc event context w))
  = (map skip_line (filter (should_exclude g) (fetched resp))
     ++ [match to_stop g resp with
         | [] => "No eligible instances to stop."
         | ids => ("Stopping instances: " ++ Py.repr_list ids)%string
         end])%list.
Proof.
  intros Hd0.
  pose proof (lambda_handler_run_case g svc event context w) as R.
  remember (lambda_handler g svc event context w) as run eqn:Hrun.
  run_cases R; try destruct Hok as (wd & Hd & Hs);
    rewrite Hd0 in Hd; try discriminate; injection Hd as <- <-; reflexivity.
Qed.

(** X13. Once the fetch has returned, the info lines of the run are one
    ["Skipping <id> due to tag exclusion"] per excluded instance, in fetch
    order, followed by a single closing line: ["Stopping instances: <ids>"]
    when a stop request is due, ["No eligible instances to stop."]
    otherwise. *)
Theorem info_log_lines (w : W) (resp : describe_response) (w1 : W) :
  describe_instances svc running_filter w = (Ok resp, w1) ->
  info_logs (trace_of (lambda_handler g svc event context w))
  = (map (fun inst =>
            ("Skipping " ++ Py.str (InstanceId inst) ++ " due to tag exclusion")%string)
         (filter (should_exclude g) (fetched resp))
     ++ [match map InstanceId
                   (filter (fun i => negb (should_exclude g i)) (fetched resp)) with
         | [] => "No eligible instances to stop."
         | ids => ("Stopping instances: " ++ Py.repr_list ids)%string
         end])%list.
Proof. apply run_info_logs. Qed.

(** X14. A run logs the exception exactly when it raises, once, and it is the
    exception it raises; a run that returns logs none. *)
Theorem failure_logged_once (w : W) :
  exception_logs (trace_of (lambda_handler g svc event context w))
  = match result_of (lambda_handler g svc event context w) with
    | Raised e => [("Lambda execution failed", e)]
    | Ok _ => []
    end.
Proof.
  pose proof (lambda_handler_run_case g svc event context w) as R.
  remember (lambda_handler g svc event context w) as run eqn:Hrun.
  run_cases R; reflexivity.
Qed.

(** X15. The records a run logs at level ERROR.  A record
    ["Failed to publish SNS message: "] followed by [str(e)] is logged exactly
    when steps 1-3 went through and the success notification raised a
    [ClientError] [e]; the record ["Lambda execution failed"] (logged by
    [logger.exception]) exactly when the run raises; and there is no other
    record at that level. *)
Theorem error_level_log_lines (w : W) (m : string) :
  In m (error_logs (trace_of (lambda_handler g svc event context w))) <->
  (exists resp w2 e w3,
      steps_ok g svc w resp w2
      /\ Py.truthy_opt (SNS_TOPIC_ARN g) = true
      /\ publish svc (topic_arn g) "EC2 Stop Notification" (summary (to_stop g resp)) w2
         = (Raised e, w3)
      /\ is_ClientError e = true
      /\ m = "Failed to publish SNS message: " ++ exc_str e)
  \/ (m = "Lambda execution failed"
      /\ exists e, result_of (lambda_handler g svc event context w) = Raised e).
Proof.
  pose proof (lambda_handler_run_case g svc event context w) as R.
  remember (lambda_handler g svc event context w) as run eqn:Hrun.
  run_cases R;
    (split;
     [ intros Hin
     | intros [(resp & w2 & e & w3 & Hok0 & Harn0 & Hp0 & Hce0 & ->) | [-> (e & He)]] ]);
    try (destruct Hin; fail); try discriminate He; try (left; reflexivity).
  - destruct Hin as [<- | []]. right. eauto.
  - destruct (steps_ok_fetch_returned w resp w2 ex wd Hok0 Hd).
  - destruct Hin as [<- | []]. right. eauto.
  - destruct (steps_ok_stop_returned w resp w2 resp' wd ex ws Hok0 Hd Hne Hs).
  - congruence.
  - destruct (steps_ok_unique w resp w2 resp' ws Hok0 Hok) as [-> ->]. congruence.
  - destruct Hin as [<- | []]. left. exists resp', ws, ex, wp. auto.
  - destruct (steps_ok_unique w resp w2 resp' ws Hok0 Hok) as [-> ->].
    rewrite Hp0 in Hp. injection Hp as <- _. left. reflexivity.
  - destruct Hin as [<- | []]. right. eauto.
  - destruct (steps_ok_unique w resp w2 resp' ws Hok0 Hok) as [-> ->].
    rewrite Hp0 in Hp. injection Hp as <- _. congruence.
Qed.

Lemma fetched_nil (resp : describe_response) :
  (forall r, In r (get_or_nil (Reservations resp)) -> get_or_nil (Instances r) = []) ->
  fetched resp = [].
Proof.
  unfold fetched. induction (get_or_nil (Reservations resp)) as [|r rs IH]; simpl.
  - reflexivity.
  - intros H. rewrite (H r (or_introl eq_refl)). apply IH.
    intros r' Hr'. apply H. right. exact Hr'.
Qed.

(** X16. A response without ['Reservations'], or whose reservations all lack
    ['Instances'] or have none, is treated as an empty inventory: no stop
    request is made and the only info line is
    ["No eligible instances to stop."]. *)
Theorem empty_inventory_is_tolerated (w : W) (resp : describe_response) (w1 : W) :
  describe_instances svc running_filter w = (Ok resp, w1) ->
  (forall r, In r (get_or_nil (Reservations resp)) -> get_or_nil (Instances r) = []) ->
  stop_calls (trace_of (lambda_handler g svc event context w)) = []
  /\ info_logs (trace_of (lambda_handler g svc event context w))
     = ["No eligible instances to stop."].
Proof.
  intros Hd Hempty. pose proof (fetched_nil resp Hempty) as Hf.
  assert (Hids : to_stop g resp = []) by (unfold to_stop; rewrite Hf; reflexivity).
  split.
  - rewrite (run_stop_calls_fetched g svc event context w resp w1 Hd), Hids. reflexivity.
  - rewrite (run_info_logs w resp w1 Hd), Hids, Hf. reflexivity.
Qed.

End HandlerExtras.

(* ===================================================================== *)
(** ** More concrete runs *)
(* ===================================================================== *)

Lemma no_topic_never_publishes_witness :
  SNS_TOPIC_ARN (load_globals Samples.env_padded) = Some EmptyString
  /\ publish_calls
       (trace_of (lambda_handler (load_globals Samples.env_padded)
                                 (Fixtures.scripted (Ok Fixtures.two_running)
                                                    (Raised Fixtures.timeout)
                                                    (fun _ => Ok tt))
                                 tt tt 0)) = [].
Proof.
  split; [reflexivity|].
  apply (no_topic_never_publishes (load_globals Samples.env_padded)).
  right. reflexivity.
Defined.

Lemma remote_call_budget_witness :
  length (publish_calls
            (trace_of (lambda_handler Fixtures.g_prod
                                      (Fixtures.scripted (Ok Fixtures.two_running) (Ok tt)
                                                         (fun _ => Raised Fixtures.timeout))
                                      tt tt 0))) = 2
  /\ exists e,
      result_of (lambda_handler Fixtures.g_prod
                                (Fixtures.scripted (Ok Fixtures.two_running) (Ok tt)
                                                   (fun _ => Raised Fixtures.timeout))
                                tt tt 0) = Raised e.
Proof.
  split; [reflexivity|].
  apply (proj2 (proj2 (proj2 (proj2
           (remote_call_budget Fixtures.g_prod
              (Fixtures.scripted (Ok Fixtures.two_running) (Ok tt)
                                 (fun _ => Raised Fixtures.timeout)) tt tt 0))))).
  reflexivity.
Defined.

Lemma no_exempt_values_stops_all_witness :
  EXCLUDE_TAG_VALUES (load_globals Fixtures.env_unset) = []
  /\ stop_calls
       (trace_of (lambda_handler (load_globals Fixtures.env_unset)
                                 (Fixtures.all_ok Fixtures.two_running) tt tt 0))
     = [[Some "i-1"; Some "i-2"]].
Proof.
  split; [reflexivity|].
  exact (no_exempt_values_stops_all (load_globals Fixtures.env_unset)
           (Fixtures.all_ok Fixtures.two_running) tt tt 0 Fixtures.two_running 1
           eq_refl eq_refl).
Defined.

Lemma stop_request_keeps_fetch_order_witness :
  In [Some "i-1"; Some "i-4"; Some "i-1"]
     (stop_calls (trace_of (lambda_handler Fixtures.g_prod
                                           (Fixtures.all_ok Samples.two_reservations)
                                           tt tt 0)))
  /\ exists resp w1,
      describe_instances (Fixtures.all_ok Samples.two_reservations) running_filter 0
      = (Ok resp, w1)
      /\ [Some "i-1"; Some "i-4"; Some "i-1"]
         = map InstanceId
               (filter (fun i => negb (should_exclude Fixtures.g_prod i))
                       (flat_map (fun r => get_or_nil (Instances r))
                                 (get_or_nil (Reservations resp)))).
Proof.
  split.
  - left. reflexivity.
  - apply (stop_request_keeps_fetch_order Fixtures.g_prod
             (Fixtures.all_ok Samples.two_reservations) tt tt 0).
    left. reflexivity.
Defined.

Lemma publish_other_error_propagates_witness :
  let svc := Fixtures.scripted (Ok Fixtures.two_running) (Ok tt)
                               (fun _ => Raised Fixtures.timeout) in
  steps_ok Fixtures.g_prod svc 0 Fixtures.two_running 2
  /\ result_of (lambda_handler Fixtures.g_prod svc tt tt 0) = Raised Fixtures.timeout
  /\ publish_calls (trace_of (lambda_handler Fixtures.g_prod svc tt tt 0))
     = [(Fixtures.topic, "EC2 Stop Notification", "Stopped EC2 instances: ['i-1']");
        (Fixtures.topic, "EC2 Stop Lambda Error", "Connect timeout on endpoint URL")].
Proof.
  intros svc.
  assert (Hok : steps_ok Fixtures.g_prod svc 0 Fixtures.two_running 2).
  { exists 1. split; reflexivity. }
  split; [exact Hok|].
  destruct (publish_other_error_propagates Fixtures.g_prod svc tt tt 0
              Fixtures.two_running 2 Fixtures.timeout 3 Hok eq_refl eq_refl eq_refl)
    as (Hr & _ & Hp).
  split; [exact Hr | exact Hp].
Defined.

Lemma info_log_lines_witness :
  describe_instances (Fixtures.all_ok Samples.two_reservations) running_filter 0
  = (Ok Samples.two_reservations, 1)
  /\ info_logs (trace_of (lambda_handler Fixtures.g_prod
                                         (Fixtures.all_ok Samples.two_reservations)
                                         tt tt 0))
     = ["Skipping i-2 due to tag exclusion";
        "Stopping instances: ['i-1', 'i-4', 'i-1']"].
Proof.
  split; [reflexivity|].
  exact (info_log_lines Fixtures.g_prod (Fixtures.all_ok Samples.two_reservations)
           tt tt 0 Samples.two_reservations 1 eq_refl).
Defined.

Lemma error_level_log_lines_witness :
  In ("Failed to publish SNS message: " ++ exc_str Fixtures.denied)
     (error_logs
        (trace_of (lambda_handler Fixtures.g_prod
                                  (Fixtures.scripted (Ok Fixtures.two_running) (Ok tt)
                                                     (fun _ => Raised Fixtures.denied))
                                  tt tt 0)))
  /\ In "Lambda execution failed"
        (error_logs
           (trace_of (lambda_handler Fixtures.g_prod
                                     (Fixtures.scripted (Raised Fixtures.timeout) (Ok tt)
                                                        (fun _ => Ok tt))
                                     tt tt 0))).
Proof.
  split.
  - apply (proj2 (error_level_log_lines Fixtures.g_prod
                    (Fixtures.scripted (Ok Fixtures.two_running) (Ok tt)
                                       (fun _ => Raised Fixtures.denied))
                    tt tt 0 _)).
    left. exists Fixtures.two_running, 2, Fixtures.denied, 3.
    split; [exists 1; split; reflexivity|]. repeat split.
  - apply (proj2 (error_level_log_lines Fixtures.g_prod
                    (Fixtures.scripted (Raised Fixtures.timeout) (Ok tt)
                                       (fun _ => Ok tt))
                    tt tt 0 _)).
    right. split; [reflexivity|]. exists Fixtures.timeout. reflexivity.
Defined.

Lemma empty_inventory_is_tolerated_witness :
  describe_instances (Fixtures.all_ok Samples.no_instances) running_filter 0
  = (Ok Samples.no_instances, 1)
  /\ stop_calls (trace_of (lambda_handler Fixtures.g_prod
                                          (Fixtures.all_ok Samples.no_instances)
                                          tt tt 0)) = []
  /\ info_logs (trace_of (lambda_handler Fixtures.g_prod
                                         (Fixtures.all_ok Samples.no_reservations)
                                         tt tt 0))
     = ["No eligible instances to stop."].
Proof.
  split; [reflexivity|]. split.
  - apply (empty_inventory_is_tolerated Fixtures.g_prod
             (Fixtures.all_ok Samples.no_instances) tt tt 0 Samples.no_instances 1
             eq_refl).
    intros r [<- | [<- | []]]; reflexivity.
  - apply (empty_inventory_is_tolerated Fixtures.g_prod
             (Fixtures.all_ok Samples.no_reservations) tt tt 0 Samples.no_reservations 1
             eq_refl).
    intros r [].
Defined.
